(** * ndt7 download subtest (server side): a shallow embedding of
    [ndt7/server.go] and the properties of its specification.

    The handler [DownloadHandler.ServeHTTP] validates the [duration] query
    parameter, checks the WebSocket subprotocol, upgrades the connection and
    then runs the measurement loop.  Everything the handler obtains from the
    outside (the result of the upgrade, the BBR file descriptor, random
    bytes, clock readings, which branch of the [select] is ready, BBR
    samples, the outcome of every write) is supplied by an explicit
    environment [Env]; everything it does to the connection is recorded in a
    trace of [Event]s.  Logging is not modelled.

    [float64] is IEEE 754 binary64, through the executable specification of
    the Standard Library ([SpecFloat], precision 53, [emax] 1024, rounding to
    nearest even). *)

From Stdlib Require Import ZArith QArith Lia Bool Ascii String.
From Stdlib Require Import Floats.SpecFloat.
From stdpp Require Import gmap strings list.

Close Scope Q_scope.
Open Scope Z_scope.

(** ** float64 *)

Module F64.

Definition prec : Z := 53.
Definition emax : Z := 1024.

Definition float64 := spec_float.

Definition sub : float64 -> float64 -> float64 := SFsub prec emax.
Definition mul : float64 -> float64 -> float64 := SFmul prec emax.
(** Go's [x < y], [x <= y] and [x >= y] on float64: false on NaN. *)
Definition ltb : float64 -> float64 -> bool := SFltb.
Definition leb : float64 -> float64 -> bool := SFleb.
Definition geb (x y : float64) : bool := SFleb y x.

(** The values a float64 variable can hold. *)
Definition valid (x : float64) : bool := valid_binary prec emax x.

Definition is_finite (x : float64) : bool :=
  match x with
  | S754_zero _ | S754_finite _ _ _ => true
  | _ => false
  end.

(** Conversion of an integer constant or value, [float64(n)]. *)
Definition of_Z (n : Z) : float64 := binary_normalize prec emax n 0 false.

Definition zero : float64 := S754_zero false.

(** The constant [0.25], that is 2^52 * 2^-54. *)
Definition quarter : float64 := S754_finite false 4503599627370496 (-54).

(** The exact value of a finite float64 in units of 2^-1074, the smallest
    positive float64: every finite float64 is an integer number of them.
    Infinities and NaN have no value; [ulps] gives 0 for them and is only
    used under [is_finite]. *)
Definition ulps (x : float64) : Z :=
  match x with
  | S754_finite s m e =>
      let v := Z.pos m * 2 ^ (e + 1074) in if s then - v else v
  | _ => 0
  end.

(** The exact value of a finite float64, as a rational number. *)
Definition ulp_denominator : positive := 2 ^ 1074.
Definition value (x : float64) : Q := ulps x # ulp_denominator.

(** The smallest positive float64, 2^-1074 (Go's
    [math.SmallestNonzeroFloat64]). *)
Definition smallest_nonzero : float64 := S754_finite false 1 (-1074).

(** 2^-1020, four times the smallest positive normal float64: from here on
    a quarter of a float64 is a normal float64. *)
Definition exact_from : float64 := S754_finite false 4503599627370496 (-1072).

End F64.

Export F64.

(** ** ndt7/server.go: the stopping rule *)

(** [func stoppableAccordingToBW(prev float64, cur float64) bool] *)
Definition stoppableAccordingToBW (prev cur : float64) : bool :=
  geb cur prev && ltb (sub cur prev) (mul quarter prev).

(** The stopping rule in the words of the specification,
    [stoppable(prev, cur) := cur >= prev AND (cur - prev) < 0.25 * prev],
    on exact bandwidth values. *)
Definition stoppable_spec (prev cur : Q) : Prop :=
  (cur >= prev)%Q /\ (cur - prev < (1 # 4) * prev)%Q.

(** ** Go library values used by the handler *)

(** 64-bit signed integers ([int], [int64], [time.Duration]) are [Z] with
    the two's complement wrap-around of Go's arithmetic written out. *)
Definition wrap64 (z : Z) : Z := (z + 2 ^ 63) mod 2 ^ 64 - 2 ^ 63.

Definition minInt64 : Z := - 2 ^ 63.
Definition maxInt64 : Z := 2 ^ 63 - 1.

Module strconv.

Definition digit (c : ascii) : option Z :=
  let n := Z.of_N (N_of_ascii c) in
  if (48 <=? n) && (n <=? 57) then Some (n - 48) else None.

(** The digits of [s] read in base ten onto [acc]; [None] when a character
    is not a decimal digit. *)
Fixpoint digits (s : string) (acc : Z) : option Z :=
  match s with
  | EmptyString => Some acc
  | String c rest =>
      match digit c with
      | Some d => digits rest (10 * acc + d)
      | None => None
      end
  end.

(** [strconv.Atoi]: an optional sign followed by one or more decimal
    digits, within the range of [int]; [None] stands for the syntax and
    range errors. *)
Definition Atoi (s : string) : option Z :=
  match s with
  | EmptyString => None
  | String c rest =>
      let neg := Ascii.eqb c "-" in
      let body := if neg || Ascii.eqb c "+" then rest else s in
      match body with
      | EmptyString => None
      | _ =>
          match digits body 0 with
          | Some n =>
              let v := if neg then - n else n in
              if (minInt64 <=? v) && (v <=? maxInt64) then Some v else None
          | None => None
          end
      end
  end.

End strconv.

Module time.

(** A reading of the monotonic clock, in nanoseconds. *)
Definition Time := Z.
(** [time.Duration], an int64 count of nanoseconds. *)
Definition Duration := Z.

Definition Nanosecond : Duration := 1.
Definition Millisecond : Duration := 1000000.
Definition Second : Duration := 1000000000.

(** [t.Sub(u)]: the difference, saturated to the range of [Duration]. *)
Definition Sub (t u : Time) : Duration :=
  Z.max minInt64 (Z.min maxInt64 (t - u)).

Definition Add (t : Time) (d : Duration) : Time := t + d.

Definition Nanoseconds (d : Duration) : Z := d.

End time.

Module textproto.

Definition is_lower (n : Z) : bool := (97 <=? n) && (n <=? 122).
Definition is_upper (n : Z) : bool := (65 <=? n) && (n <=? 90).
Definition is_digit (n : Z) : bool := (48 <=? n) && (n <=? 57).

(** The bytes of an HTTP token: letters, digits and [!#$%&'*+-.^_`|~]. *)
Definition validHeaderFieldByte (c : ascii) : bool :=
  let n := Z.of_N (N_of_ascii c) in
  is_lower n || is_upper n || is_digit n
  || existsb (Z.eqb n) [33; 35; 36; 37; 38; 39; 42; 43; 45; 46; 94; 95; 96; 124; 126].

Definition all_valid (s : string) : bool :=
  forallb (fun c => validHeaderFieldByte c || Ascii.eqb c " ") (list_ascii_of_string s).

Definition has_space (s : string) : bool :=
  existsb (fun c => Ascii.eqb c " ") (list_ascii_of_string s).

Definition to_ascii (n : Z) : ascii := ascii_of_N (Z.to_N n).

(** First letter and every letter after a hyphen in upper case, the other
    letters in lower case. *)
Fixpoint canon (upper : bool) (s : string) : string :=
  match s with
  | EmptyString => EmptyString
  | String c rest =>
      let n := Z.of_N (N_of_ascii c) in
      let c' :=
        if upper && is_lower n then to_ascii (n - 32)
        else if negb upper && is_upper n then to_ascii (n + 32)
        else c in
      String c' (canon (Ascii.eqb c' "-") rest)
  end.

(** [textproto.CanonicalMIMEHeaderKey]: a key with a byte that is not a
    token byte, or with a space, is returned unchanged. *)
Definition CanonicalMIMEHeaderKey (s : string) : string :=
  if all_valid s && negb (has_space s) then canon true s else s.

End textproto.

Module url.

(** [url.Values], a [map[string][]string]. *)
Definition Values := gmap string (list string).

(** [Values.Get]: the first value of the key, the empty string when there
    is none. *)
Definition Get (v : Values) (key : string) : string :=
  match v !! key with
  | Some (s :: _) => s
  | _ => EmptyString
  end.

End url.

Module http.

(** [http.Header], a [map[string][]string] under canonical keys. *)
Definition Header := gmap string (list string).

Definition Get (h : Header) (key : string) : string :=
  match h !! textproto.CanonicalMIMEHeaderKey key with
  | Some (s :: _) => s
  | _ => EmptyString
  end.

Definition Set_ (h : Header) (key value : string) : Header :=
  <[textproto.CanonicalMIMEHeaderKey key := [value]]> h.

Definition Add (h : Header) (key value : string) : Header :=
  let k := textproto.CanonicalMIMEHeaderKey key in
  <[k := default [] (h !! k) ++ [value]]> h.

Definition StatusBadRequest : Z := 400.

(** The part of [*http.Request] the handler reads: the parsed query string
    [request.URL.Query()] and the request headers. *)
Record Request := {
  Query : url.Values;
  Header_ : Header
}.

(** [http.ResponseWriter]: the response headers and the status code, once
    written. *)
Record ResponseWriter := {
  header : Header;
  status : option Z
}.

(** [writer.Header().Set(key, value)] *)
Definition HeaderSet (w : ResponseWriter) (key value : string) : ResponseWriter :=
  {| header := Set_ (header w) key value; status := status w |}.

(** [writer.WriteHeader(code)]: only the first call sets the status. *)
Definition WriteHeader (w : ResponseWriter) (code : Z) : ResponseWriter :=
  match status w with
  | None => {| header := header w; status := Some code |}
  | Some _ => w
  end.

End http.

Module websocket.

Definition BinaryMessage : Z := 2.
Definition CloseMessage : Z := 8.
Definition CloseNormalClosure : Z := 1000.
Definition CloseNoStatusReceived : Z := 1005.

Definition byte_of_Z (z : Z) : Byte.byte :=
  default Byte.x00 (Byte.of_N (Z.to_N (z mod 256))).

(** [websocket.FormatCloseMessage]: the close code as a big-endian uint16
    followed by the text. *)
Definition FormatCloseMessage (closeCode : Z) (text : string) : list Byte.byte :=
  if closeCode =? CloseNoStatusReceived then []
  else byte_of_Z (closeCode / 256) :: byte_of_Z closeCode :: list_byte_of_string text.

(** [websocket.PreparedMessage] *)
Record PreparedMessage := {
  messageType : Z;
  payload : list Byte.byte
}.

End websocket.

Export time.

(** ** ndt7/server.go: the handler *)

(** [defaultDuration] is the default duration of a subtest in nanoseconds. *)
Definition defaultDuration : Duration := wrap64 (10 * Second).

(** [maxDuration] is the maximum duration of a subtest in seconds. *)
Definition maxDuration : Z := 30.

(** [const bufferSize = 1 << 13] *)
Definition bufferSize : Z := Z.shiftl 1 13.

(** The measurement message, with the two fields the handler fills in. *)
Record Measurement := {
  Elapsed : Z;
  NumBytes : Z
}.

(** What the handler does to the upgrader, the ticker and the connection, in
    the order of the calls.  [ok] is the outcome the environment gave to the
    call: [true] when it returned no error. *)
Inductive Event :=
| Upgrade (responseHeader : http.Header) (ok : bool)
| SetReadLimit (limit : Z)
| NewTicker (d : Duration)
| SetWriteDeadline (t : Time)
| WriteJSON (v : Measurement) (ok : bool)
| WritePreparedMessage (pm : websocket.PreparedMessage) (ok : bool)
| WriteControl (messageType : Z) (data : list Byte.byte) (deadline : Time)
| TickerStop
| ConnClose.

(** One iteration of the [for running] loop, as the environment decides it.
    [Tick]: the [select] received [t] from [ticker.C]; [sample] is what
    [bbr.GetBBRInfo] returns ([None] for an error), [now] the clock read for
    the write deadline and [werr] whether [conn.WriteJSON] fails.
    [Default]: no tick was ready; [now] is the clock read for the duration
    check, [now'] the clock read for the write deadline and [werr] whether
    [conn.WritePreparedMessage] fails.  A field is not consulted when the
    handler does not reach the corresponding call. *)
Inductive Step :=
| Tick (t : Time) (sample : option (float64 * float64)) (now : Time) (werr : bool)
| Default (now : Time) (now' : Time) (werr : bool).

(** Everything the handler obtains from the outside after validation. *)
Record Env := {
  upgrade_err : bool;               (* [dl.Upgrader.Upgrade] fails *)
  bbr_fd : Z;                       (* [bbr.ExtractBBRFd], -1 on error *)
  random_bytes : list Byte.byte;    (* what [rand.Read] writes into [data] *)
  prepare_err : bool;               (* [websocket.NewPreparedMessage] fails *)
  start : Time;                     (* [t0 := time.Now()] *)
  steps : list Step;                (* the iterations of the loop *)
  close_now : Time                  (* the clock read for the close deadline *)
}.

(** How a run of the handler ends.  [OutOfSteps]: the environment described
    no further iteration while the loop was still running. *)
Inductive Exit :=
| BadRequest
| UpgradeFailed
| PrepareFailed
| WriteFailed
| Expired (now : Time)
| Stopped
| OutOfSteps.

Record Result := {
  writer : http.ResponseWriter;
  trace : list Event;
  exit : Exit
}.

(** The loop ended by itself ([running] became false), not by a [return]. *)
Definition normal (e : Exit) : bool :=
  match e with
  | Expired _ | Stopped => true
  | _ => false
  end.

Definition is_data_frame (ev : Event) : bool :=
  match ev with
  | WritePreparedMessage _ true => true
  | _ => false
  end.

Definition is_close_frame (ev : Event) : bool :=
  match ev with
  | WriteControl _ _ _ => true
  | _ => false
  end.

Definition is_failed_write (ev : Event) : bool :=
  match ev with
  | WriteJSON _ false | WritePreparedMessage _ false => true
  | _ => false
  end.

(** A trace without a close control frame; a trace without a failed write. *)
Definition no_close (tr : list Event) : Prop :=
  Forall (fun ev => is_close_frame ev = false) tr.

Definition no_failed_write (tr : list Event) : Prop :=
  Forall (fun ev => is_failed_write ev = false) tr.

(** The number of close control frames sent in a trace. *)
Definition close_frames (tr : list Event) : nat :=
  length (filter (fun ev => is_close_frame ev = true) tr).

(** The clock readings [l] start at [lo] or later and each is later than the
    one before. *)
Fixpoint increasing (lo : Time) (l : list Time) : bool :=
  match l with
  | [] => true
  | t :: l' => (lo <=? t) && increasing (t + 1) l'
  end.

(** The number of binary data frames sent in a trace. *)
Definition data_frames (tr : list Event) : Z :=
  Z.of_nat (length (filter (fun ev => is_data_frame ev = true) tr)).

(** The measurement messages of a trace, in the order of their emission. *)
Fixpoint measurements (tr : list Event) : list Measurement :=
  match tr with
  | [] => []
  | WriteJSON m _ :: tr' => m :: measurements tr'
  | _ :: tr' => measurements tr'
  end.

(** The clock readings of the duration checks, in order. *)
Fixpoint check_times (l : list Step) : list Time :=
  match l with
  | [] => []
  | Default now _ _ :: l' => now :: check_times l'
  | Tick _ _ _ _ :: l' => check_times l'
  end.

(** The write of an iteration fails. *)
Definition write_fails (s : Step) : bool :=
  match s with
  | Tick _ _ _ werr => werr
  | Default _ _ werr => werr
  end.

(** The stopping rule fires at none of the ticks of [l], the retained
    bandwidth being [bandwidth] at first. *)
Fixpoint never_stops (fd : Z) (bandwidth : float64) (l : list Step) : bool :=
  match l with
  | [] => true
  | Tick _ (Some (bw, _)) _ _ :: l' =>
      if fd =? -1 then never_stops fd bandwidth l'
      else negb (stoppableAccordingToBW bandwidth bw) && never_stops fd bw l'
  | _ :: l' => never_stops fd bandwidth l'
  end.

(** The clock of a session: the readings of successive duration checks
    (line 125) increase, from the start time [t0] on. *)
Definition clock_advances (env : Env) : Prop :=
  increasing (start env) (check_times (steps env)) = true.

Section Handler.

(** Constants of package [ndt7] declared outside [server.go]. *)
Variable SecWebSocketProtocol : string.
Variable MinMaxMessageSize : Z.
Variable MinMeasurementInterval : Duration.
Variable defaultTimeout : Duration.

(** Lines 39-52: the duration of the subtest, [None] when the handler
    answers 400 and returns. *)
Definition queryDuration (request : http.Request) : option Duration :=
  let duration := defaultDuration in
  let s := url.Get (http.Query request) "duration" in
  if negb (String.eqb s "") then
    match strconv.Atoi s with
    | Some value =>
        if (value <? 0) || (value >? maxDuration) then None
        else Some (wrap64 (Second * value))
    | None => None
    end
  else Some duration.

(** [writer.Header().Set("Connection", "Close")] then
    [writer.WriteHeader(http.StatusBadRequest)] then [return]. *)
Definition badRequest (w : http.ResponseWriter) : Result :=
  {| writer := http.WriteHeader (http.HeaderSet w "Connection" "Close")
                 http.StatusBadRequest;
     trace := [];
     exit := BadRequest |}.

Section Loop.

Variable duration : Duration.
Variable fd : Z.
Variable buffer : websocket.PreparedMessage.
Variable t0 : Time.

(** Lines 91-136, entered with [running] true; [count] and [bandwidth]
    are the loop's variables. *)
Fixpoint loop (l : list Step) (count : Z) (bandwidth : float64)
  : list Event * Exit :=
  match l with
  | [] => ([], OutOfSteps)
  | Tick t sample now werr :: l' =>
      let measurement :=
        {| Elapsed := Nanoseconds (Sub t t0); NumBytes := count |} in
      let '(running, bandwidth') :=
        if negb (fd =? -1) then
          match sample with
          | Some (bw, rtt) => (negb (stoppableAccordingToBW bandwidth bw), bw)
          | None => (true, bandwidth)
          end
        else (true, bandwidth) in
      let evs := [SetWriteDeadline (Add now defaultTimeout);
                  WriteJSON measurement (negb werr)] in
      if werr then (evs, WriteFailed)
      else if running then
        let '(tr, e) := loop l' count bandwidth' in (evs ++ tr, e)
      else (evs, Stopped)
  | Default now now' werr :: l' =>
      if Sub now t0 >=? duration then ([], Expired now)
      else
        let evs := [SetWriteDeadline (Add now' defaultTimeout);
                    WritePreparedMessage buffer (negb werr)] in
        if werr then (evs, WriteFailed)
        else
          let '(tr, e) := loop l' (wrap64 (count + bufferSize)) bandwidth in
          (evs ++ tr, e)
  end.

End Loop.

(** [data := make([]byte, bufferSize)] then [rand.Read(data)]. *)
Definition randomData (env : Env) : list Byte.byte :=
  take (Z.to_nat bufferSize)
    (random_bytes env ++ replicate (Z.to_nat bufferSize) Byte.x00).

(** Lines 53-139: the handler once the duration is known.  What the
    upgrader itself writes to the response is its own business and is not
    recorded in [writer]. *)
Definition serve (duration : Duration) (w : http.ResponseWriter)
    (request : http.Request) (env : Env) : Result :=
  if negb (String.eqb (http.Get (http.Header_ request) "Sec-WebSocket-Protocol")
             SecWebSocketProtocol)
  then badRequest w
  else
    let headers := http.Add ∅ "Sec-WebSocket-Protocol" SecWebSocketProtocol in
    if upgrade_err env then
      {| writer := w; trace := [Upgrade headers false]; exit := UpgradeFailed |}
    else
      let fd := bbr_fd env in
      let data := randomData env in
      let buffer :=
        {| websocket.messageType := websocket.BinaryMessage;
           websocket.payload := data |} in
      let opened := [Upgrade headers true; SetReadLimit MinMaxMessageSize] in
      if prepare_err env then
        {| writer := w; trace := opened ++ [ConnClose]; exit := PrepareFailed |}
      else
        let t0 := start env in
        let '(tr, e) := loop duration fd buffer t0 (steps env) 0 zero in
        let closing :=
          match e with
          | Expired _ | Stopped =>
              [WriteControl websocket.CloseMessage
                 (websocket.FormatCloseMessage websocket.CloseNormalClosure "")
                 (Add (close_now env) defaultTimeout);
               TickerStop; ConnClose]
          | OutOfSteps => []
          | _ => [TickerStop; ConnClose]
          end in
        {| writer := w;
           trace := opened ++ [NewTicker MinMeasurementInterval] ++ tr ++ closing;
           exit := e |}.

(** [func (dl DownloadHandler) ServeHTTP(writer http.ResponseWriter,
    request *http.Request)] *)
Definition ServeHTTP (w : http.ResponseWriter) (request : http.Request)
    (env : Env) : Result :=
  match queryDuration request with
  | None => badRequest w
  | Some duration => serve duration w request env
  end.

End Handler.

(** ** Sample values *)

(** An instance of the package constants: the ndt7 subprotocol name, a read
    limit of 1<<17 bytes, the 250 ms measurement interval and a 7 s write
    timeout. *)
Definition sampleProtocol : string := "net.measurementlab.ndt.v7".
Definition sampleMessageSize : Z := 131072.
Definition sampleInterval : Duration := 250 * Millisecond.
Definition sampleTimeout : Duration := 7 * Second.

Definition sampleHandler := ServeHTTP sampleProtocol sampleMessageSize sampleInterval sampleTimeout.

(** A response writer on which nothing was written yet. *)
Definition freshWriter : http.ResponseWriter :=
  {| http.header := ∅; http.status := None |}.

(** A request with the right subprotocol and the given [duration] values. *)
Definition requestWith (query : url.Values) : http.Request :=
  {| http.Query := query;
     http.Header_ := {[ "Sec-Websocket-Protocol" := [sampleProtocol] ]} |}.

(** A short session: a data frame, a tick at 250 ms with a first BBR sample
    of 100 bytes/s, a second data frame, then a duration check 10.1 s after
    the start. *)
Definition sampleEnv : Env :=
  {| upgrade_err := false;
     bbr_fd := 5;
     random_bytes := [];
     prepare_err := false;
     start := 0;
     steps := [Default 1000 1001 false;
               Tick 250000000 (Some (of_Z 100, of_Z 3000)) 250000100 false;
               Default 250001000 250001001 false;
               Default 10100000000 10100000001 false];
     close_now := 10100000002 |}.

(** A session whose first measurement message cannot be written. *)
Definition brokenEnv : Env :=
  {| upgrade_err := false;
     bbr_fd := -1;
     random_bytes := [];
     prepare_err := false;
     start := 0;
     steps := [Tick 250000000 None 250000100 true];
     close_now := 0 |}.

(** A session of [duration=2] with no BBR data in which the data frame
    begun 1.999 s after the start takes 300 ms to write: the pending tick is
    served next, and the duration check that ends the loop reads 2.3001 s. *)
Definition slowEnv : Env :=
  {| upgrade_err := false;
     bbr_fd := -1;
     random_bytes := [];
     prepare_err := false;
     start := 0;
     steps := [Default 1999000000 1999000001 false;
               Tick 2000000000 None 2300000000 false;
               Default 2300100000 2300100001 false];
     close_now := 2300100002 |}.

(** ** Further observations on environments and traces *)

(** A float64 of sign [s]: a zero, a finite number or an infinity. *)
Definition signed (s : bool) (x : float64) : Prop :=
  match x with
  | S754_zero s' | S754_infinity s' | S754_finite s' _ _ => s' = s
  | S754_nan => False
  end.

(** The times the ticker delivered, in order. *)
Fixpoint tick_times (l : list Step) : list Time :=
  match l with
  | [] => []
  | Tick t _ _ _ :: l' => t :: tick_times l'
  | Default _ _ _ :: l' => tick_times l'
  end.

(** The bandwidth samples the handler obtains over the ticks of [l]: none
    without a BBR file descriptor, none at a tick where [bbr.GetBBRInfo]
    fails. *)
Fixpoint samples (fd : Z) (l : list Step) : list float64 :=
  match l with
  | [] => []
  | Tick _ (Some (bw, _)) _ _ :: l' =>
      if fd =? -1 then samples fd l' else bw :: samples fd l'
  | _ :: l' => samples fd l'
  end.

Definition is_write (ev : Event) : bool :=
  match ev with
  | WriteJSON _ _ | WritePreparedMessage _ _ => true
  | _ => false
  end.

Definition is_upgraded (ev : Event) : bool :=
  match ev with
  | Upgrade _ true => true
  | _ => false
  end.

Definition is_conn_close (ev : Event) : bool :=
  match ev with
  | ConnClose => true
  | _ => false
  end.

Definition is_new_ticker (ev : Event) : bool :=
  match ev with
  | NewTicker _ => true
  | _ => false
  end.

Definition is_ticker_stop (ev : Event) : bool :=
  match ev with
  | TickerStop => true
  | _ => false
  end.

(** How many events of a trace satisfy [p]. *)
Definition occurrences (p : Event -> bool) (tr : list Event) : nat :=
  length (filter (fun ev => p ev = true) tr).

(** A trace made of pairs: a [SetWriteDeadline] and then one write of a
    measurement or of a data frame. *)
Fixpoint deadline_then_write (tr : list Event) : bool :=
  match tr with
  | [] => true
  | SetWriteDeadline _ :: WriteJSON _ _ :: tr' => deadline_then_write tr'
  | SetWriteDeadline _ :: WritePreparedMessage _ _ :: tr' => deadline_then_write tr'
  | _ => false
  end.

(** A session with BBR data that the stopping rule ends: the samples 100
    and then 120 bytes/s at two successive ticks. *)
Definition plateauEnv : Env :=
  {| upgrade_err := false;
     bbr_fd := 5;
     random_bytes := [];
     prepare_err := false;
     start := 0;
     steps := [Default 1000 1001 false;
               Tick 250000000 (Some (of_Z 100, of_Z 3000)) 250000100 false;
               Default 250001000 250001001 false;
               Tick 500000000 None 500000100 false;
               Tick 750000000 (Some (of_Z 120, of_Z 3000)) 750000100 false;
               Default 750001000 750001001 false];
     close_now := 750000200 |}.

(** A session in which the upgrade fails. *)
Definition refusedEnv : Env :=
  {| upgrade_err := true;
     bbr_fd := -1;
     random_bytes := [];
     prepare_err := false;
     start := 0;
     steps := [];
     close_now := 0 |}.

(** * Properties *)

(** ** The models on sample inputs *)

Example value_samples :
  (value (of_Z 100) == 100)%Q /\ (value quarter == 1 # 4)%Q /\
  (value exact_from == 1 # 2 ^ 1020)%Q /\ (value smallest_nonzero == 1 # 2 ^ 1074)%Q /\
  valid (of_Z 100) = true /\ valid quarter = true /\ valid exact_from = true.
Proof. vm_compute. repeat split. Qed.

(** The sample sequence 100, 120, 125 of the specification: the rule fires
    on the first pair (growth of 20 is under 25) and on the second. *)
Example stoppable_samples :
  stoppableAccordingToBW (of_Z 100) (of_Z 120) = true /\
  stoppableAccordingToBW (of_Z 120) (of_Z 125) = true /\
  stoppableAccordingToBW (of_Z 100) (of_Z 125) = false /\
  stoppableAccordingToBW (of_Z 100) (of_Z 99) = false.
Proof. vm_compute. repeat split. Qed.

Example Atoi_samples :
  strconv.Atoi "30" = Some 30 /\ strconv.Atoi "+7" = Some 7 /\
  strconv.Atoi "007" = Some 7 /\ strconv.Atoi "-1" = Some (-1) /\
  strconv.Atoi "" = None /\ strconv.Atoi "abc" = None /\
  strconv.Atoi " 5" = None /\ strconv.Atoi "1e1" = None /\
  strconv.Atoi "2.5" = None /\ strconv.Atoi "-" = None /\
  strconv.Atoi "9223372036854775807" = Some maxInt64 /\
  strconv.Atoi "9223372036854775808" = None /\
  strconv.Atoi "-9223372036854775808" = Some minInt64.
Proof. vm_compute. repeat split. Qed.

Example header_key_samples :
  textproto.CanonicalMIMEHeaderKey "Sec-WebSocket-Protocol" = "Sec-Websocket-Protocol" /\
  textproto.CanonicalMIMEHeaderKey "connection" = "Connection" /\
  textproto.CanonicalMIMEHeaderKey "my header" = "my header".
Proof. vm_compute. repeat split. Qed.

(** The session [sampleEnv] under [duration=2]: two data frames of 8192
    bytes around a measurement, then the close frame with code 1000. *)
Example sample_session :
  let r := sampleHandler freshWriter (requestWith {[ "duration" := ["2"] ]}) sampleEnv in
  exit r = Expired 10100000000 /\
  measurements (trace r) = [{| Elapsed := 250000000; NumBytes := 8192 |}] /\
  data_frames (trace r) = 2 /\
  last (trace r) = Some ConnClose /\
  Forall (fun ev => match ev with
                    | WritePreparedMessage pm _ =>
                        websocket.messageType pm = websocket.BinaryMessage /\
                        Z.of_nat (length (websocket.payload pm)) = bufferSize
                    | _ => True
                    end) (trace r).
Proof.
  vm_compute. repeat split. repeat constructor.
Qed.

(** ** float64 arithmetic *)

Lemma digits2_pos_bounds (m : positive) :
  2 ^ (Z.pos (digits2_pos m) - 1) <= Z.pos m < 2 ^ Z.pos (digits2_pos m).
Proof.
  induction m as [m IH | m IH |]; simpl digits2_pos.
  - rewrite Pos2Z.inj_succ, Z.pow_succ_r by lia.
    replace (Z.succ (Z.pos (digits2_pos m)) - 1) with (Z.succ (Z.pos (digits2_pos m) - 1)) by lia.
    rewrite Z.pow_succ_r by lia. lia.
  - rewrite Pos2Z.inj_succ, Z.pow_succ_r by lia.
    replace (Z.succ (Z.pos (digits2_pos m)) - 1) with (Z.succ (Z.pos (digits2_pos m) - 1)) by lia.
    rewrite Z.pow_succ_r by lia. lia.
  - simpl. lia.
Qed.

Lemma iter_xO_value (m d : positive) :
  Z.pos (Pos.iter xO m d) = Z.pos m * 2 ^ Z.pos d.
Proof.
  induction d as [| d IH] using Pos.peano_ind.
  - simpl. lia.
  - rewrite Pos.iter_succ, Pos2Z.inj_succ, Z.pow_succ_r by lia.
    rewrite Pos2Z.inj_xO, IH. lia.
Qed.

Lemma iter_xO_digits (m d : positive) :
  digits2_pos (Pos.iter xO m d) = (digits2_pos m + d)%positive.
Proof.
  induction d as [| d IH] using Pos.peano_ind.
  - simpl. lia.
  - rewrite Pos.iter_succ. simpl. rewrite IH. lia.
Qed.

(** [shl_align] to a smaller or equal exponent keeps the value. *)
Lemma shl_align_le (m : positive) (e e' : Z) :
  e' <= e ->
  exists m', shl_align m e e' = (m', e') /\
             Z.pos m' = Z.pos m * 2 ^ (e - e') /\
             Z.pos (digits2_pos m') = Z.pos (digits2_pos m) + (e - e').
Proof.
  intros H. unfold shl_align.
  destruct (e' - e) as [| p | p] eqn:E; try lia.
  - assert (e' = e) as -> by lia. exists m. rewrite Z.sub_diag. simpl. split; [reflexivity | lia].
  - exists (Pos.iter xO m p). replace (e - e') with (Z.pos p) by lia.
    rewrite iter_xO_value, iter_xO_digits. split; [reflexivity | lia].
Qed.

Lemma shl_align_ge (m : positive) (e e' : Z) :
  e <= e' -> shl_align m e e' = (m, e).
Proof.
  intros H. unfold shl_align. destruct (e' - e) eqn:E; try lia; reflexivity.
Qed.

(** A canonical mantissa has at most 53 digits over an exponent of at least
    -1074, and exactly 53 digits over a larger exponent. *)
Lemma canonical_inv (m : positive) (e : Z) :
  canonical_mantissa prec emax m e = true ->
  -1074 <= e /\ Z.pos (digits2_pos m) <= 53 /\ (-1074 < e -> Z.pos (digits2_pos m) = 53).
Proof.
  unfold canonical_mantissa, fexp, SpecFloat.emin, prec, emax. intros H.
  apply Z.eqb_eq in H. lia.
Qed.

Lemma canonical_intro (m : positive) (e : Z) :
  Z.max (Z.pos (digits2_pos m) + e - 53) (-1074) = e ->
  canonical_mantissa prec emax m e = true.
Proof.
  unfold canonical_mantissa, fexp, SpecFloat.emin, prec, emax. intros H.
  apply Z.eqb_eq. lia.
Qed.

Lemma valid_finite_inv (s : bool) (m : positive) (e : Z) :
  valid (S754_finite s m e) = true ->
  canonical_mantissa prec emax m e = true /\ e <= 971.
Proof.
  unfold valid, valid_binary, bounded. intros H.
  apply andb_true_iff in H as [H1 H2]. apply Z.leb_le in H2.
  unfold emax, prec in H2. split; [exact H1 | lia].
Qed.

Lemma pow2_pos (k : Z) : 0 <= k -> 0 < 2 ^ k.
Proof. intros. apply Z.pow_pos_nonneg; lia. Qed.

(** Of two positive canonical floats, the one of smaller exponent is the
    smaller one. *)
Lemma canonical_exp_lt (m1 m2 : positive) (e1 e2 : Z) :
  canonical_mantissa prec emax m1 e1 = true ->
  canonical_mantissa prec emax m2 e2 = true ->
  e1 < e2 ->
  ulps (S754_finite false m1 e1) < ulps (S754_finite false m2 e2).
Proof.
  intros C1 C2 H12.
  destruct (canonical_inv _ _ C1) as (He1 & Hd1 & Hn1).
  destruct (canonical_inv _ _ C2) as (He2 & Hd2 & Hn2).
  pose proof (digits2_pos_bounds m1) as B1.
  pose proof (digits2_pos_bounds m2) as B2.
  assert (Z.pos m1 < 2 ^ 53) as Hm1.
  { eapply Z.lt_le_trans; [apply B1 |]. apply Z.pow_le_mono_r; lia. }
  assert (2 ^ 52 <= Z.pos m2) as Hm2.
  { rewrite Hn2 in B2 by lia. simpl in B2. lia. }
  unfold ulps.
  replace (e2 + 1074) with ((e1 + 1074) + 1 + (e2 - e1 - 1)) by lia.
  rewrite (Z.pow_add_r 2 (e1 + 1074 + 1) (e2 - e1 - 1)) by lia.
  rewrite (Z.pow_add_r 2 (e1 + 1074) 1) by lia.
  pose proof (pow2_pos (e1 + 1074) ltac:(lia)).
  pose proof (pow2_pos (e2 - e1 - 1) ltac:(lia)).
  change (2 ^ 1) with 2.
  set (P := 2 ^ (e1 + 1074)) in *. set (Q := 2 ^ (e2 - e1 - 1)) in *.
  apply Z.lt_le_trans with (2 ^ 53 * P).
  { apply Z.mul_lt_mono_pos_r; assumption. }
  apply Z.le_trans with (Z.pos m2 * (P * 2) * 1).
  { change (2 ^ 53) with (2 ^ 52 * 2).
    replace (2 ^ 52 * 2 * P) with (2 ^ 52 * (P * 2)) by ring.
    rewrite Z.mul_1_r. apply Z.mul_le_mono_nonneg_r; lia. }
  replace (Z.pos m2 * (P * 2 * Q)) with (Z.pos m2 * (P * 2) * Q) by ring.
  apply Z.mul_le_mono_nonneg_l; lia.
Qed.

(** Comparison of two positive canonical floats is comparison of their
    values. *)
Lemma compare_canonical (m1 m2 : positive) (e1 e2 : Z) :
  canonical_mantissa prec emax m1 e1 = true ->
  canonical_mantissa prec emax m2 e2 = true ->
  SFcompare (S754_finite false m1 e1) (S754_finite false m2 e2) =
  Some (ulps (S754_finite false m1 e1) ?= ulps (S754_finite false m2 e2)).
Proof.
  intros C1 C2.
  simpl SFcompare. f_equal.
  destruct (Z.compare_spec e1 e2) as [-> | Hlt12 | Hgt12].
  - destruct (canonical_inv _ _ C2) as (He2 & _ & _).
    rewrite Pos.compare_cont_spec. unfold ulps. simpl Pos.switch_Eq.
    pose proof (pow2_pos (e2 + 1074) ltac:(lia)).
    change (m1 ?= m2)%positive with (Z.pos m1 ?= Z.pos m2).
    symmetry. destruct (Z.compare_spec (Z.pos m1) (Z.pos m2)) as [E | L | G].
    + rewrite E. apply Z.compare_refl.
    + apply Z.compare_lt_iff. nia.
    + apply Z.compare_gt_iff. nia.
  - symmetry. apply Z.compare_lt_iff. apply canonical_exp_lt; assumption.
  - symmetry. apply Z.compare_gt_iff. apply canonical_exp_lt; assumption.
Qed.

(** Exact right shifts: [p] shifts of [m * 2^p] drop no bit. *)
Lemma shr_exact (p : positive) (m : positive) :
  SpecFloat.iter_pos shr_1 p {| shr_m := Z.pos (Pos.iter xO m p); shr_r := false; shr_s := false |} =
  {| shr_m := Z.pos m; shr_r := false; shr_s := false |}.
Proof.
  revert m. induction p as [p IH | p IH |]; intros m; simpl.
  - rewrite IH, IH. reflexivity.
  - rewrite IH, IH. reflexivity.
  - reflexivity.
Qed.

(** Right shifts of a positive mantissa divide it by a power of two. *)
Lemma shr_m_iter (p : positive) (mrs : shr_record) :
  0 <= shr_m mrs ->
  shr_m (SpecFloat.iter_pos shr_1 p mrs) = shr_m mrs / 2 ^ Z.pos p.
Proof.
  assert (forall mrs, 0 <= shr_m mrs -> shr_m (shr_1 mrs) = shr_m mrs / 2) as H1.
  { intros [m r s] H. cbn [shr_m] in H.
    destruct m as [| [q | q |] | q]; cbn [shr_1 shr_m]; try lia.
    - reflexivity.
    - rewrite Pos2Z.inj_xI. apply Z.div_unique with 1; lia.
    - rewrite Pos2Z.inj_xO. apply Z.div_unique with 0; lia.
    - reflexivity. }
  assert (forall x k, 0 <= x -> 0 <= k -> 0 <= x / 2 ^ k) as Hnn.
  { intros x k Hx Hk. apply Z.div_pos; [lia | apply pow2_pos; lia]. }
  revert mrs. induction p as [p IH | p IH |]; intros mrs H; cbn [SpecFloat.iter_pos].
  - assert (0 <= shr_m (shr_1 mrs)) as A1.
    { rewrite H1 by exact H. apply Z.div_pos; lia. }
    assert (0 <= shr_m (SpecFloat.iter_pos shr_1 p (shr_1 mrs))) as A2.
    { rewrite IH by exact A1. apply Hnn; lia. }
    rewrite (IH _ A2), (IH _ A1), (H1 _ H).
    rewrite !Z.div_div by (try apply pow2_pos; lia).
    f_equal. rewrite Pos2Z.inj_xI.
    replace (2 * Z.pos p + 1) with (1 + Z.pos p + Z.pos p) by lia.
    rewrite !Z.pow_add_r by lia. change (2 ^ 1) with 2. lia.
  - assert (0 <= shr_m (SpecFloat.iter_pos shr_1 p mrs)) as A2.
    { rewrite IH by exact H. apply Hnn; lia. }
    rewrite (IH _ A2), (IH _ H).
    rewrite !Z.div_div by (try apply pow2_pos; lia).
    f_equal. replace (Z.pos p~0) with (Z.pos p + Z.pos p) by lia.
    rewrite Z.pow_add_r by lia. reflexivity.
  - rewrite H1 by exact H. reflexivity.
Qed.

(** The rounding of a mantissa that is already canonical is exact. *)
Lemma binary_round_aux_canonical (m : positive) (e : Z) :
  canonical_mantissa prec emax m e = true ->
  e <= 971 ->
  binary_round_aux prec emax false (Z.pos m) e loc_Exact = S754_finite false m e.
Proof.
  intros C He.
  assert (fexp prec emax (Z.pos (digits2_pos m) + e) - e = 0) as Hs.
  { unfold canonical_mantissa in C. apply Z.eqb_eq in C. lia. }
  unfold binary_round_aux, shr_fexp. cbn [Zdigits2 shr_record_of_loc].
  rewrite Hs. cbn [shr shr_m loc_of_shr_record round_nearest_even Zdigits2 shr_record_of_loc].
  rewrite Hs. cbn [shr shr_m].
  replace (e <=? emax - prec) with true; [reflexivity |].
  symmetry. apply Z.leb_le. unfold emax, prec. lia.
Qed.

(** [0.25 * x] is exact on a normal [x] of exponent at least -1072: the
    mantissa is kept and the exponent is lowered by two. *)
Lemma mul_quarter_normal (m : positive) (e : Z) :
  Z.pos (digits2_pos m) = 53 -> -1072 <= e <= 971 ->
  mul quarter (S754_finite false m e) = S754_finite false m (e - 2).
Proof.
  intros Hd He. unfold mul, SFmul, quarter. cbn [xorb].
  change (4503599627370496 * m)%positive with (Pos.iter xO m 52).
  unfold binary_round_aux at 1. unfold shr_fexp at 1. cbn [Zdigits2 shr_record_of_loc].
  rewrite iter_xO_digits, Pos2Z.inj_add, Hd.
  replace (fexp prec emax (53 + 52 + (-54 + e)) - (-54 + e)) with 52
    by (unfold fexp, SpecFloat.emin, prec, emax; lia).
  cbn [shr]. rewrite shr_exact.
  cbn [shr_m loc_of_shr_record round_nearest_even].
  replace (-54 + e + 52) with (e - 2) by lia.
  unfold shr_fexp. cbn [Zdigits2 shr_record_of_loc]. rewrite Hd.
  replace (fexp prec emax (53 + (e - 2)) - (e - 2)) with 0
    by (unfold fexp, SpecFloat.emin, prec, emax; lia).
  cbn [shr shr_m].
  replace (e - 2 <=? emax - prec) with true; [reflexivity |].
  symmetry. apply Z.leb_le. unfold emax, prec. lia.
Qed.

(** Rounding a positive integer [D] of at most 53 digits at an exponent [e]
    is exact: the result is the canonical float of value [D * 2^e]. *)
Lemma binary_round_small (D : positive) (e : Z) :
  Z.pos (digits2_pos D) <= 53 -> -1074 <= e <= 971 ->
  exists m' e',
    binary_round prec emax false D e = S754_finite false m' e' /\
    canonical_mantissa prec emax m' e' = true /\
    -1074 <= e' <= e /\
    Z.pos m' = Z.pos D * 2 ^ (e - e').
Proof.
  intros Hd He. unfold binary_round.
  set (e' := fexp prec emax (Z.pos (digits2_pos D) + e)).
  assert (-1074 <= e' <= e /\ e' = Z.max (Z.pos (digits2_pos D) + e - 53) (-1074)) as [He' Ee'].
  { unfold e', fexp, SpecFloat.emin, prec, emax. lia. }
  destruct (shl_align_le D e e' ltac:(lia)) as (m' & -> & Hv & Hdig).
  assert (canonical_mantissa prec emax m' e' = true) as C.
  { apply canonical_intro. lia. }
  exists m', e'. split; [| auto].
  apply binary_round_aux_canonical; [exact C | lia].
Qed.

(** A right shift to the canonical exponent of a mantissa of 53 or 54 digits
    leaves a positive mantissa and does not lower the exponent. *)
Lemma shr_fexp_positive (m1 e1 : Z) :
  2 ^ 52 <= m1 <= 2 ^ 53 -> -1074 <= e1 ->
  exists mrs e2, shr_fexp prec emax m1 e1 loc_Exact = (mrs, e2) /\
                 0 < shr_m mrs /\ e1 <= e2.
Proof.
  intros Hm He. destruct m1 as [| q | q]; try lia.
  pose proof (digits2_pos_bounds q) as B.
  assert (53 <= Z.pos (digits2_pos q) <= 54) as Hd.
  { split.
    - enough (52 < Z.pos (digits2_pos q)) by lia.
      apply (Z.pow_lt_mono_r_iff 2); lia.
    - enough (Z.pos (digits2_pos q) - 1 < 54) by lia.
      apply (Z.pow_lt_mono_r_iff 2); lia. }
  unfold shr_fexp. cbn [Zdigits2 shr_record_of_loc].
  set (n := fexp prec emax (Z.pos (digits2_pos q) + e1) - e1).
  assert (0 <= n <= 1) as Hn.
  { unfold n, fexp, SpecFloat.emin, prec, emax. lia. }
  unfold shr. destruct n as [| p | p] eqn:En; try lia.
  - eexists _, _. split; [reflexivity |]. cbn [shr_m]. lia.
  - eexists _, _. split; [reflexivity |].
    rewrite shr_m_iter by (cbn [shr_m]; lia). cbn [shr_m].
    assert (Z.pos p = 1) as -> by lia. change (2 ^ 1) with 2.
    split; [| lia].
    apply Z.div_str_pos. lia.
Qed.

(** Rounding a positive integer [D] of more than 53 digits at an exponent
    [e] gives a float that is not below any float of exponent at most [e]. *)
Lemma binary_round_large (D mq : positive) (e eq : Z) :
  54 <= Z.pos (digits2_pos D) -> -1074 <= e -> eq <= e ->
  ltb (binary_round prec emax false D e) (S754_finite false mq eq) = false.
Proof.
  intros Hd He Heq.
  pose proof (digits2_pos_bounds D) as B.
  unfold binary_round.
  set (dg := Z.pos (digits2_pos D)) in *.
  assert (fexp prec emax (dg + e) = dg + e - 53) as Hf
    by (unfold fexp, SpecFloat.emin, prec, emax; lia).
  rewrite Hf, shl_align_ge by lia.
  unfold binary_round_aux.
  unfold shr_fexp at 1. cbn [Zdigits2 shr_record_of_loc]. fold dg. rewrite Hf.
  unfold shr at 1.
  destruct (dg + e - 53 - e) as [| p | p] eqn:Ep; try lia.
  set (mrs' := SpecFloat.iter_pos shr_1 p _).
  assert (shr_m mrs' = Z.pos D / 2 ^ Z.pos p) as Hm
    by (unfold mrs'; rewrite shr_m_iter by (cbn [shr_m]; lia); reflexivity).
  assert (2 ^ 52 <= shr_m mrs' < 2 ^ 53) as Hb.
  { rewrite Hm.
    assert (0 < 2 ^ Z.pos p) by (apply pow2_pos; lia).
    assert (2 ^ (dg - 1) = 2 ^ Z.pos p * 2 ^ 52) as E1
      by (rewrite <- Z.pow_add_r by lia; f_equal; lia).
    assert (2 ^ dg = 2 ^ Z.pos p * 2 ^ 53) as E2
      by (rewrite <- Z.pow_add_r by lia; f_equal; lia).
    split.
    - apply Z.div_le_lower_bound; lia.
    - apply Z.div_lt_upper_bound; lia. }
  assert (2 ^ 52 <= round_nearest_even (shr_m mrs') (loc_of_shr_record mrs') <= 2 ^ 53) as Hr.
  { unfold round_nearest_even.
    destruct (loc_of_shr_record mrs') as [| []]; try destruct (Z.even _); lia. }
  destruct (shr_fexp_positive _ (e + Z.pos p) Hr ltac:(lia)) as (mrs'' & e2 & -> & Hpos & He2).
  destruct (shr_m mrs'') as [| m2 | m2]; try lia.
  destruct (e2 <=? emax - prec); [| reflexivity].
  unfold ltb, SFltb, SFcompare.
  replace (e2 ?= eq) with Gt; [reflexivity |].
  symmetry. apply Z.compare_gt_iff. lia.
Qed.

Lemma ulps_nonneg (x : float64) : geb x zero = true -> 0 <= ulps x.
Proof.
  destruct x as [s | s | | [] m e]; simpl; try lia; discriminate.
Qed.

(** A positive float64 of at least 2^-1020 is normal, with an exponent of at
    least -1072. *)
Lemma large_normal (m : positive) (e : Z) :
  canonical_mantissa prec emax m e = true ->
  2 ^ 54 <= ulps (S754_finite false m e) ->
  Z.pos (digits2_pos m) = 53 /\ -1072 <= e.
Proof.
  intros C H. destruct (canonical_inv _ _ C) as (He & Hd & Hn).
  pose proof (digits2_pos_bounds m) as B.
  assert (Z.pos m < 2 ^ 53) as Hm.
  { eapply Z.lt_le_trans; [apply B |]. apply Z.pow_le_mono_r; lia. }
  assert (-1072 <= e) as He'.
  { destruct (Z_lt_le_dec e (-1072)) as [Hlt | Hge]; [exfalso | exact Hge].
    unfold ulps in H.
    assert (2 ^ (e + 1074) <= 2 ^ 1) by (apply Z.pow_le_mono_r; lia).
    pose proof (pow2_pos (e + 1074) ltac:(lia)).
    change (2 ^ 1) with 2 in *. change (2 ^ 54) with (2 ^ 53 * 2) in H. nia. }
  split; [apply Hn; lia | exact He'].
Qed.

(** The stopping rule on two positive samples, the previous one normal and
    at least 2^-1020. *)
Lemma stoppable_positive (mp mc : positive) (ep ec : Z) :
  valid (S754_finite false mp ep) = true ->
  valid (S754_finite false mc ec) = true ->
  2 ^ 54 <= ulps (S754_finite false mp ep) ->
  stoppableAccordingToBW (S754_finite false mp ep) (S754_finite false mc ec) = true <->
  ulps (S754_finite false mp ep) <= ulps (S754_finite false mc ec) /\
  4 * (ulps (S754_finite false mc ec) - ulps (S754_finite false mp ep))
    < ulps (S754_finite false mp ep).
Proof.
  intros Vp Vc Hbig.
  destruct (valid_finite_inv _ _ _ Vp) as [Cp Hep].
  destruct (valid_finite_inv _ _ _ Vc) as [Cc Hec].
  destruct (large_normal _ _ Cp Hbig) as [Hdp Hep'].
  destruct (canonical_inv _ _ Cc) as (Hec' & _ & _).
  unfold stoppableAccordingToBW, geb, SFleb.
  rewrite (compare_canonical _ _ _ _ Cp Cc).
  destruct (Z.compare_spec (ulps (S754_finite false mp ep)) (ulps (S754_finite false mc ec)))
    as [Hle | Hle | Hgt]; cycle 2.
  { rewrite andb_false_l. split; [discriminate | lia]. }
  all: assert (ulps (S754_finite false mp ep) <= ulps (S754_finite false mc ec)) as Hord by lia;
       clear Hle; rewrite andb_true_l.
  all: assert (ep <= ec) as Hexp
         by (destruct (Z_le_gt_dec ep ec) as [L | G]; [exact L |];
             pose proof (canonical_exp_lt _ _ _ _ Cc Cp ltac:(lia)); lia).
  all: rewrite (mul_quarter_normal mp ep Hdp ltac:(lia)).
  all: unfold sub, SFsub; cbn [cond_Zopp]; rewrite Z.min_r by lia.
  all: rewrite (shl_align_ge mp ep ep ltac:(lia)); cbn [fst].
  all: destruct (shl_align_le mc ec ep Hexp) as (mc' & -> & Hv & _); cbn [fst].
  all: pose proof (pow2_pos (ep + 1074) ltac:(lia)) as HP.
  all: assert (2 ^ (ep + 1074) = 4 * 2 ^ (ep - 2 + 1074)) as HP4
         by (replace (ep + 1074) with (2 + (ep - 2 + 1074)) by lia;
             rewrite Z.pow_add_r by lia; reflexivity).
  all: assert (ulps (S754_finite false mc ec) = Z.pos mc' * 2 ^ (ep + 1074)) as Uc
         by (unfold ulps; rewrite Hv, <- Z.mul_assoc, <- Z.pow_add_r by lia;
             do 2 f_equal; lia).
  all: assert (canonical_mantissa prec emax mp (ep - 2) = true) as Cq
         by (apply canonical_intro; lia).
  all: rewrite Uc in *; unfold ulps in Hord, Hbig |- *.
  all: set (P := 2 ^ (ep + 1074)) in *; set (P4 := 2 ^ (ep - 2 + 1074)) in *.
  all: destruct (Z.pos mc' - Z.pos mp) as [| D | D] eqn:ED; try nia.
  all: cbn [binary_normalize].
  1, 3: split; [intros _; nia | intros _; reflexivity].
  all: pose proof (digits2_pos_bounds D) as BD.
  all: destruct (Z_le_gt_dec (Z.pos (digits2_pos D)) 53) as [Hsmall | Hlarge].
  1, 3: destruct (binary_round_small D ep Hsmall ltac:(lia)) as (m' & e' & -> & Cr & He' & Hm');
        unfold ltb, SFltb; rewrite (compare_canonical _ _ _ _ Cr Cq); unfold ulps;
        fold P4;
        assert (Z.pos m' * 2 ^ (e' + 1074) = Z.pos D * P) as ->
          by (rewrite Hm', <- Z.mul_assoc, <- Z.pow_add_r by lia; unfold P; do 2 f_equal; lia);
        destruct (Z.compare_spec (Z.pos D * P) (Z.pos mp * P4));
        split; try discriminate; try reflexivity; nia.
  all: rewrite (binary_round_large D mp ep (ep - 2) ltac:(lia) ltac:(lia) ltac:(lia)).
  all: split; [discriminate |]; intros [_ Hc]; exfalso.
  all: assert (2 ^ 53 <= Z.pos D)
         by (eapply Z.le_trans; [| apply BD]; apply Z.pow_le_mono_r; lia).
  all: pose proof (digits2_pos_bounds mp) as Bp; rewrite Hdp in Bp; nia.
Qed.

(** The spec's rule on exact values, in units of 2^-1074. *)
Lemma stoppable_spec_ulps (prev cur : float64) :
  stoppable_spec (value prev) (value cur) <->
  ulps prev <= ulps cur /\ 4 * (ulps cur - ulps prev) < ulps prev.
Proof.
  unfold stoppable_spec, value, Qle, Qlt, Qminus, Qplus, Qopp, Qmult.
  cbn [Qnum Qden].
  generalize ulp_denominator as d. intros d.
  rewrite !Pos2Z.inj_mul.
  generalize (ulps prev) as p, (ulps cur) as c. intros p c.
  assert (0 < Z.pos d) by lia.
  split; intros [H1 H2]; split; nia.
Qed.

(** With a previous sample of zero the rule never holds. *)
Lemma stoppable_zero_any (s : bool) (cur : float64) :
  stoppableAccordingToBW (S754_zero s) cur = false.
Proof.
  unfold stoppableAccordingToBW, geb, ltb, sub, mul, quarter, SFleb, SFltb.
  destruct cur as [[] | [] | | [] mc ec]; destruct s; reflexivity.
Qed.

(** C1 (as amended).  For all finite float64 samples [prev >= 0] and
    [cur >= 0] such that [prev] is zero or at least 2^-1020,
    [stoppableAccordingToBW(prev, cur)] returns true if and only if the exact
    values satisfy [cur >= prev] and [cur - prev < 0.25 * prev]; and for the
    samples 100 and 120 it returns true. *)
Theorem stoppable_matches_formula :
  (forall prev cur : float64,
     valid prev = true -> valid cur = true ->
     is_finite prev = true -> is_finite cur = true ->
     geb prev zero = true -> geb cur zero = true ->
     SFeqb prev zero || geb prev exact_from = true ->
     stoppableAccordingToBW prev cur = true <->
     stoppable_spec (value prev) (value cur)) /\
  stoppableAccordingToBW (of_Z 100) (of_Z 120) = true.
Proof.
  split; [| reflexivity].
  intros prev cur Vp Vc Fp Fc Pp Pc Hdom.
  rewrite stoppable_spec_ulps.
  pose proof (ulps_nonneg cur Pc) as Hc0.
  destruct prev as [sp | sp | | [] mp ep]; try discriminate.
  - rewrite stoppable_zero_any. cbn [ulps]. split; [discriminate | lia].
  - assert (2 ^ 54 <= ulps (S754_finite false mp ep)) as Hbig.
    { destruct (valid_finite_inv _ _ _ Vp) as [Cp _].
      unfold geb, SFleb, exact_from in Hdom.
      rewrite (compare_canonical 4503599627370496 mp (-1072) ep eq_refl Cp) in Hdom.
      cbn [SFeqb SFcompare zero orb] in Hdom.
      change (ulps (S754_finite false 4503599627370496 (-1072))) with (2 ^ 54) in Hdom.
      destruct (Z.compare_spec (2 ^ 54) (ulps (S754_finite false mp ep)));
        [lia | lia | discriminate]. }
    destruct cur as [sc | sc | | [] mc ec]; try discriminate.
    + unfold stoppableAccordingToBW, geb, SFleb. cbn [SFcompare andb ulps].
      split; [discriminate | cbn [ulps] in Hbig; lia].
    + apply stoppable_positive; assumption.
Qed.

(** C3 (as amended).  When [prev] is zero (of either sign) and [cur >= 0],
    the first conjunct [cur >= prev] of the rule holds, the second conjunct
    [(cur - prev) < 0.25 * prev] does not, and the rule is false. *)
Theorem zero_prev_never_stoppable (s : bool) (cur : float64) :
  geb cur zero = true ->
  geb cur (S754_zero s) = true /\
  ltb (sub cur (S754_zero s)) (mul quarter (S754_zero s)) = false /\
  stoppableAccordingToBW (S754_zero s) cur = false.
Proof.
  intros H. split; [| split; [| apply stoppable_zero_any]].
  - destruct cur as [[] | [] | | [] mc ec]; try discriminate; reflexivity.
  - unfold ltb, sub, mul, quarter, SFltb.
    destruct cur as [[] | [] | | [] mc ec]; try discriminate; destruct s; reflexivity.
Qed.

(** ** Integers and the query string *)

Lemma wrap64_small (z : Z) : minInt64 <= z <= maxInt64 -> wrap64 z = z.
Proof.
  unfold wrap64, minInt64, maxInt64. intros H.
  rewrite Z.mod_small; lia.
Qed.

Lemma wrap64_range (z : Z) : minInt64 <= wrap64 z <= maxInt64.
Proof.
  unfold wrap64, minInt64, maxInt64.
  pose proof (Z.mod_pos_bound (z + 2 ^ 63) (2 ^ 64)). lia.
Qed.

Lemma wrap64_add_l (a b : Z) : wrap64 (wrap64 a + b) = wrap64 (a + b).
Proof.
  unfold wrap64.
  replace ((a + 2 ^ 63) mod 2 ^ 64 - 2 ^ 63 + b + 2 ^ 63)
    with ((a + 2 ^ 63) mod 2 ^ 64 + b) by lia.
  rewrite Z.add_mod_idemp_l by lia.
  f_equal. f_equal. lia.
Qed.

Lemma defaultDuration_eq : defaultDuration = 10 * Second.
Proof. reflexivity. Qed.

Lemma Get_absent (v : url.Values) (key : string) :
  v !! key = None -> url.Get v key = "".
Proof. unfold url.Get. intros ->. reflexivity. Qed.

Lemma Atoi_nonempty (s : string) (v : Z) : strconv.Atoi s = Some v -> s <> "".
Proof. destruct s; [discriminate | congruence]. Qed.

Section Properties.

Variable SecWebSocketProtocol : string.
Variable MinMaxMessageSize : Z.
Variable MinMeasurementInterval : Duration.
Variable defaultTimeout : Duration.

Local Abbreviation handler :=
  (ServeHTTP SecWebSocketProtocol MinMaxMessageSize MinMeasurementInterval defaultTimeout).
Local Abbreviation served :=
  (serve SecWebSocketProtocol MinMaxMessageSize MinMeasurementInterval defaultTimeout).

Lemma queryDuration_accept (request : http.Request) (value : Z) :
  strconv.Atoi (url.Get (http.Query request) "duration") = Some value ->
  0 <= value <= maxDuration ->
  queryDuration request = Some (value * Second).
Proof.
  intros HA Hr. unfold queryDuration. rewrite HA.
  pose proof (Atoi_nonempty _ _ HA) as Hne.
  apply String.eqb_neq in Hne. rewrite Hne. simpl.
  replace (value <? 0) with false by (symmetry; apply Z.ltb_ge; lia).
  replace (value >? maxDuration) with false
    by (symmetry; rewrite Z.gtb_ltb; apply Z.ltb_ge; lia).
  simpl. f_equal. unfold maxDuration, Second in *.
  rewrite wrap64_small; unfold minInt64, maxInt64; lia.
Qed.

Lemma queryDuration_reject (request : http.Request) :
  let s := url.Get (http.Query request) "duration" in
  s <> "" ->
  (forall value, strconv.Atoi s = Some value -> value < 0 \/ maxDuration < value) ->
  queryDuration request = None.
Proof.
  intros s Hne Hbad. unfold queryDuration. fold s.
  apply String.eqb_neq in Hne. rewrite Hne. simpl.
  destruct (strconv.Atoi s) as [value |] eqn:HA; [| reflexivity].
  destruct (Hbad value eq_refl) as [H | H].
  - replace (value <? 0) with true by (symmetry; apply Z.ltb_lt; lia). reflexivity.
  - replace (value >? maxDuration) with true
      by (symmetry; rewrite Z.gtb_ltb; apply Z.ltb_lt; lia).
    rewrite orb_true_r. reflexivity.
Qed.

Lemma queryDuration_empty (request : http.Request) :
  url.Get (http.Query request) "duration" = "" ->
  queryDuration request = Some defaultDuration.
Proof. intros H. unfold queryDuration. rewrite H. reflexivity. Qed.

(** The duration the loop runs with is between 0 and 30 seconds. *)
Lemma queryDuration_range (request : http.Request) (d : Duration) :
  queryDuration request = Some d -> 0 <= d <= maxDuration * Second.
Proof.
  unfold queryDuration.
  destruct (negb _).
  - destruct (strconv.Atoi _) as [value |]; [| discriminate].
    destruct (value <? 0) eqn:H1; [discriminate |].
    destruct (value >? maxDuration) eqn:H2; [discriminate |].
    simpl. intros [= <-].
    apply Z.ltb_ge in H1. rewrite Z.gtb_ltb in H2. apply Z.ltb_ge in H2.
    unfold maxDuration, Second in *.
    rewrite wrap64_small; unfold minInt64, maxInt64; lia.
  - intros [= <-]. vm_compute. split; discriminate.
Qed.

(** The answer of [badRequest] on a fresh writer. *)
Lemma badRequest_response (w : http.ResponseWriter) :
  http.status w = None ->
  http.status (writer (badRequest w)) = Some http.StatusBadRequest /\
  http.header (writer (badRequest w)) !! "Connection" = Some ["Close"] /\
  trace (badRequest w) = [] /\
  exit (badRequest w) = BadRequest.
Proof.
  intros Hw. unfold badRequest, http.WriteHeader, http.HeaderSet. simpl.
  rewrite Hw. simpl. repeat split.
  unfold http.Set_.
  change (textproto.CanonicalMIMEHeaderKey "Connection") with "Connection".
  apply lookup_insert_eq.
Qed.

(** C4 (as amended).  Let [s] be the first value of the [duration] query
    parameter.  If [s] parses as an integer between 0 and 30, the handler
    accepts it and goes on with that many seconds as the duration of the
    subtest.  If [s] is not empty and is not such an integer (it does not
    parse, or it is negative, or greater than 30), the handler answers with
    status 400 and the header [Connection: Close] and never calls the
    upgrader.  If the parameter is absent, the handler goes on with the
    default of 10 seconds. *)
Theorem duration_validation (w : http.ResponseWriter) (request : http.Request) (env : Env) :
  let s := url.Get (http.Query request) "duration" in
  (forall value, strconv.Atoi s = Some value -> 0 <= value <= 30 ->
     handler w request env = served (value * Second) w request env) /\
  (s <> "" ->
   (forall value, strconv.Atoi s = Some value -> value < 0 \/ 30 < value) ->
   handler w request env = badRequest w /\
   (http.status w = None ->
    http.status (writer (handler w request env)) = Some 400 /\
    http.header (writer (handler w request env)) !! "Connection" = Some ["Close"] /\
    trace (handler w request env) = [])) /\
  (http.Query request !! "duration" = None ->
   handler w request env = served (10 * Second) w request env).
Proof.
  intros s. split; [| split].
  - intros value HA Hr. unfold ServeHTTP.
    rewrite (queryDuration_accept request value HA Hr). reflexivity.
  - intros Hne Hbad.
    assert (handler w request env = badRequest w) as E.
    { unfold ServeHTTP. rewrite (queryDuration_reject request Hne Hbad). reflexivity. }
    split; [exact E |]. intros Hw. rewrite E.
    destruct (badRequest_response w Hw) as (H1 & H2 & H3 & _). auto.
  - intros Habs. unfold ServeHTTP.
    rewrite (queryDuration_empty request (Get_absent _ _ Habs)). reflexivity.
Qed.

Lemma serve_mismatch (d : Duration) (w : http.ResponseWriter)
    (request : http.Request) (env : Env) :
  http.Get (http.Header_ request) "Sec-WebSocket-Protocol" <> SecWebSocketProtocol ->
  served d w request env = badRequest w.
Proof.
  intros H. unfold serve. apply String.eqb_neq in H. rewrite H. reflexivity.
Qed.

Lemma handler_mismatch (w : http.ResponseWriter) (request : http.Request) (env : Env) :
  http.Get (http.Header_ request) "Sec-WebSocket-Protocol" <> SecWebSocketProtocol ->
  handler w request env = badRequest w.
Proof.
  intros H. unfold ServeHTTP.
  destruct (queryDuration request); [apply serve_mismatch; exact H | reflexivity].
Qed.

Lemma Header_Get_missing (h : http.Header) :
  h !! "Sec-Websocket-Protocol" = None -> http.Get h "Sec-WebSocket-Protocol" = "".
Proof.
  intros H. unfold http.Get.
  change (textproto.CanonicalMIMEHeaderKey "Sec-WebSocket-Protocol")
    with "Sec-Websocket-Protocol".
  rewrite H. reflexivity.
Qed.

(** C5.  A request whose [Sec-WebSocket-Protocol] header differs from the
    server's subprotocol identifier is answered with status 400 and the
    header [Connection: Close], and the upgrader is never called (the trace
    of connection events is empty), whatever the [duration] parameter is.  A
    request without the header is such a request, the identifier being a
    non-empty string. *)
Theorem subprotocol_mismatch (w : http.ResponseWriter) (request : http.Request) (env : Env) :
  http.status w = None ->
  http.Get (http.Header_ request) "Sec-WebSocket-Protocol" <> SecWebSocketProtocol
  \/ (http.Header_ request !! "Sec-Websocket-Protocol" = None /\ SecWebSocketProtocol <> "") ->
  http.status (writer (handler w request env)) = Some 400 /\
  http.header (writer (handler w request env)) !! "Connection" = Some ["Close"] /\
  trace (handler w request env) = [] /\
  exit (handler w request env) = BadRequest.
Proof.
  intros Hw H.
  assert (http.Get (http.Header_ request) "Sec-WebSocket-Protocol" <> SecWebSocketProtocol) as Hne.
  { destruct H as [H | [Hm Hp]]; [exact H |].
    rewrite (Header_Get_missing _ Hm). congruence. }
  rewrite (handler_mismatch w request env Hne).
  apply badRequest_response. exact Hw.
Qed.


(** C2.  As long as no BBR sample has been taken the retained bandwidth is
    its initial zero, and [stoppableAccordingToBW(0, cur)] is false for every
    [cur] (in particular for every [cur >= 0]): a tick that obtains the first
    sample does not stop the loop, which goes on with the next iteration when
    the measurement is written. *)
Theorem first_sample_never_stops (cur : float64) :
  stoppableAccordingToBW zero cur = false /\
  forall d fd buffer t0 t rtt now l count,
    loop defaultTimeout d fd buffer t0 (Tick t (Some (cur, rtt)) now false :: l) count zero =
    ([SetWriteDeadline (Add now defaultTimeout);
      WriteJSON {| Elapsed := Nanoseconds (Sub t t0); NumBytes := count |} true]
     ++ fst (loop defaultTimeout d fd buffer t0 l count (if fd =? -1 then zero else cur)),
     snd (loop defaultTimeout d fd buffer t0 l count (if fd =? -1 then zero else cur))).
Proof.
  split; [apply stoppable_zero_any |].
  intros d fd buffer t0 t rtt now l count.
  cbn [loop]. fold zero. unfold zero at 1. rewrite stoppable_zero_any.
  destruct (fd =? -1); cbn [negb]; destruct (loop _ _ _ _ _ l count _); reflexivity.
Qed.


(** *** The shape of the loop's trace *)

Section LoopFacts.

Variable d : Duration.
Variable fd : Z.
Variable buffer : websocket.PreparedMessage.
Variable t0 : Time.

Local Abbreviation run := (loop defaultTimeout d fd buffer t0).

(** The loop itself sends no close frame; a failed write is the last event
    of the loop and happens exactly when the loop returns by it. *)
Lemma loop_trace (l : list Step) (count : Z) (bw : float64) (tr : list Event) (e : Exit) :
  run l count bw = (tr, e) ->
  no_close tr /\
  match e with
  | WriteFailed =>
      exists pre ev, tr = pre ++ [ev] /\ is_failed_write ev = true /\ no_failed_write pre
  | _ => no_failed_write tr
  end.
Proof.
  unfold no_close, no_failed_write.
  revert count bw tr e.
  induction l as [| [t sample now werr | now now' werr] l IH]; intros c bw tr e; simpl.
  - intros [= <- <-]. split; constructor.
  - destruct (if negb (fd =? -1) then _ else _) as [running bw'].
    destruct werr.
    { intros [= <- <-]. split; [repeat constructor |].
      eexists [_], _. repeat split. repeat constructor. }
    destruct running.
    + destruct (run l c bw') as [tr' e'] eqn:HL'.
      intros [= <- <-]. destruct (IH _ _ _ _ HL') as [H1 H2].
      split; [repeat constructor; exact H1 |].
      destruct e'; try (repeat constructor; exact H2).
      destruct H2 as (pre & ev & -> & Hev & Hpre).
      eexists (_ :: _ :: pre), ev. repeat split; [exact Hev |].
      repeat constructor; exact Hpre.
    + intros [= <- <-]. split; repeat constructor.
  - destruct (Sub now t0 >=? d).
    { intros [= <- <-]. split; constructor. }
    destruct werr.
    { intros [= <- <-]. split; [repeat constructor |].
      eexists [_], _. repeat split. repeat constructor. }
    destruct (run l _ bw) as [tr' e'] eqn:HL'.
    intros [= <- <-]. destruct (IH _ _ _ _ HL') as [H1 H2].
    split; [repeat constructor; exact H1 |].
    destruct e'; try (repeat constructor; exact H2).
    destruct H2 as (pre & ev & -> & Hev & Hpre).
    eexists (_ :: _ :: pre), ev. repeat split; [exact Hev |].
    repeat constructor; exact Hpre.
Qed.

(** The loop leaves by the duration check at the first check whose clock
    reading is at least [d] after [t0]. *)
Lemma loop_expired (l : list Step) (count : Z) (bw : float64) (tr : list Event) (now : Time) :
  run l count bw = (tr, Expired now) ->
  d <= Sub now t0 /\
  exists pre now' werr post,
    l = pre ++ Default now now' werr :: post /\
    Forall (fun t => Sub t t0 < d) (check_times pre).
Proof.
  revert count bw tr.
  induction l as [| [t sample tn werr | tn now' werr] l IH]; intros c bw tr; simpl.
  - discriminate.
  - destruct (if negb (fd =? -1) then _ else _) as [running bw'].
    destruct werr; [discriminate |].
    destruct running; [| discriminate].
    destruct (run l c bw') as [tr' e'] eqn:HL'.
    intros [= _ ->]. destruct (IH _ _ _ HL') as (H1 & pre & n' & we & post & -> & HF).
    split; [exact H1 |].
    exists (Tick t sample tn false :: pre), n', we, post. split; [reflexivity | exact HF].
  - destruct (Sub tn t0 >=? d) eqn:Hge.
    { intros [= _ ->]. apply Z.geb_le in Hge. split; [exact Hge |].
      exists [], now', werr, l. split; [reflexivity | constructor]. }
    destruct werr; [discriminate |].
    destruct (run l _ bw) as [tr' e'] eqn:HL'.
    intros [= _ ->]. destruct (IH _ _ _ HL') as (H1 & pre & n' & we & post & -> & HF).
    split; [exact H1 |].
    exists (Default tn now' false :: pre), n', we, post. split; [reflexivity |].
    simpl. constructor; [| exact HF].
    rewrite Z.geb_leb in Hge. apply Z.leb_gt in Hge. exact Hge.
Qed.

(** Conversely, the loop reaches a duration check that follows iterations
    without a failed write, without a stop decision and with earlier checks
    before the duration, and ends there when the duration has elapsed. *)
Lemma loop_reaches_check (pre post : list Step) (now now' : Time) (werr : bool)
    (count : Z) (bw : float64) :
  Forall (fun t => Sub t t0 < d) (check_times pre) ->
  Forall (fun s => write_fails s = false) pre ->
  never_stops fd bw pre = true ->
  d <= Sub now t0 ->
  snd (run (pre ++ Default now now' werr :: post) count bw) = Expired now.
Proof.
  intros Hchk Hw Hns Hd. revert count bw Hchk Hw Hns.
  induction pre as [| [t sample tn we | tn tn' we] pre IH]; intros c bw Hchk Hw Hns.
  - cbn [app loop]. replace (Sub now t0 >=? d) with true; [reflexivity |].
    symmetry. apply Z.geb_le. exact Hd.
  - apply Forall_cons in Hw as [Hwe Hw]. cbn [write_fails] in Hwe. subst we.
    cbn [app loop]. cbn [check_times] in Hchk.
    assert (forall bw',
              never_stops fd bw' pre = true ->
              snd (let '(tr, e) := run (pre ++ Default now now' werr :: post) c bw' in
                   ([SetWriteDeadline (Add tn defaultTimeout);
                     WriteJSON {| Elapsed := Nanoseconds (Sub t t0); NumBytes := c |} true]
                    ++ tr, e)) = Expired now) as Hgo.
    { intros bw' Hns'. specialize (IH c bw' Hchk Hw Hns').
      destruct (run _ c bw'). exact IH. }
    cbn [never_stops] in Hns.
    destruct sample as [[s_bw s_rtt] |]; destruct (fd =? -1) eqn:Efd; cbn [negb].
    + exact (Hgo bw Hns).
    + apply andb_true_iff in Hns as [H1 H2]. rewrite H1. exact (Hgo s_bw H2).
    + exact (Hgo bw Hns).
    + exact (Hgo bw Hns).
  - apply Forall_cons in Hw as [Hwe Hw]. cbn [write_fails] in Hwe. subst we.
    cbn [check_times] in Hchk. apply Forall_cons in Hchk as [Hlt Hchk].
    cbn [app loop]. cbn [never_stops] in Hns.
    replace (Sub tn t0 >=? d) with false
      by (symmetry; rewrite Z.geb_leb; apply Z.leb_gt; exact Hlt).
    specialize (IH (wrap64 (c + bufferSize)) bw Hchk Hw Hns).
    destruct (run _ _ bw). exact IH.
Qed.

End LoopFacts.

(** *** The handler after validation *)

Lemma no_close_count (tr : list Event) : no_close tr -> close_frames tr = 0%nat.
Proof.
  unfold no_close, close_frames. induction 1 as [| ev tr Hev _ IH]; [reflexivity |].
  rewrite filter_cons. destruct (decide (is_close_frame ev = true)) as [E | _]; [congruence | exact IH].
Qed.

Lemma close_frames_app (a b : list Event) :
  close_frames (a ++ b) = (close_frames a + close_frames b)%nat.
Proof. unfold close_frames. rewrite filter_app, length_app. reflexivity. Qed.

(** C7.  When a write of a data frame or of a measurement frame fails, the
    handler returns at once: the failed write is the last thing it does to
    the connection before the deferred [ticker.Stop()] and [conn.Close()],
    and no close control frame is sent anywhere in the session. *)
Theorem write_error_skips_close (w : http.ResponseWriter) (request : http.Request) (env : Env) :
  Exists (fun ev => is_failed_write ev = true) (trace (handler w request env)) ->
  exit (handler w request env) = WriteFailed /\
  (exists pre ev, trace (handler w request env) = pre ++ [ev; TickerStop; ConnClose] /\
                  is_failed_write ev = true /\ no_failed_write pre) /\
  close_frames (trace (handler w request env)) = 0%nat.
Proof.
  unfold ServeHTTP.
  destruct (queryDuration request) as [d |]; [| simpl; inversion 1].
  unfold serve.
  destruct (negb _); [simpl; inversion 1 |].
  destruct (upgrade_err env).
  { simpl. intros H. apply Exists_cons in H as [H | H]; [discriminate | inversion H]. }
  destruct (prepare_err env).
  { simpl. intros H. repeat (apply Exists_cons in H as [H | H]; [discriminate |]). inversion H. }
  destruct (loop _ _ _ _ _ _ _ _) as [tr e] eqn:HL.
  destruct (loop_trace _ _ _ _ _ _ _ _ _ HL) as [Hc Hf].
  cbn [trace exit].
  intros H.
  assert (e = WriteFailed) as ->.
  { destruct e; try reflexivity; exfalso;
      repeat (apply Exists_cons in H as [H | H]; [discriminate |]);
      apply Exists_app in H as [H | H];
      try (apply Exists_exists in H as (ev & Hin & Hev);
           unfold no_failed_write in Hf; rewrite Forall_forall in Hf;
           specialize (Hf ev Hin); congruence);
      repeat (apply Exists_cons in H as [H | H]; [discriminate |]); inversion H. }
  destruct Hf as (pre & ev & -> & Hev & Hpre).
  split; [reflexivity |]. split.
  - eexists (_ :: _ :: _ :: pre), ev. split; [| split; [exact Hev |]].
    + simpl. rewrite <- app_assoc. reflexivity.
    + repeat constructor; exact Hpre.
  - apply no_close_count. unfold no_close in *.
    repeat constructor. apply Forall_app. split; [exact Hc | repeat constructor].
Qed.

(** C9.  When the loop ends by itself (the duration elapsed or the stopping
    rule fired), the handler sends one close control frame, the only one of
    the session: its payload is the normal-closure code 1000 with an empty
    reason, its deadline is the clock reading plus [defaultTimeout], and it
    is the last write before the deferred [ticker.Stop()] and
    [conn.Close()]. *)
Theorem normal_exit_sends_close (w : http.ResponseWriter) (request : http.Request) (env : Env) :
  normal (exit (handler w request env)) = true ->
  (exists pre,
     trace (handler w request env) =
       pre ++ [WriteControl websocket.CloseMessage
                 (websocket.FormatCloseMessage websocket.CloseNormalClosure "")
                 (Add (close_now env) defaultTimeout);
               TickerStop; ConnClose] /\
     no_close pre /\ no_failed_write pre) /\
  close_frames (trace (handler w request env)) = 1%nat /\
  websocket.FormatCloseMessage websocket.CloseNormalClosure "" = [Byte.x03; Byte.xe8].
Proof.
  unfold ServeHTTP.
  destruct (queryDuration request) as [d |]; [| discriminate].
  unfold serve.
  destruct (negb _); [discriminate |].
  destruct (upgrade_err env); [discriminate |].
  destruct (prepare_err env); [discriminate |].
  destruct (loop _ _ _ _ _ _ _ _) as [tr e] eqn:HL.
  destruct (loop_trace _ _ _ _ _ _ _ _ _ HL) as [Hc Hf].
  cbn [trace exit]. intros Hn.
  assert (no_close ([Upgrade (http.Add ∅ "Sec-WebSocket-Protocol" SecWebSocketProtocol) true;
                     SetReadLimit MinMaxMessageSize; NewTicker MinMeasurementInterval] ++ tr)
          /\ no_failed_write ([Upgrade (http.Add ∅ "Sec-WebSocket-Protocol" SecWebSocketProtocol) true;
                     SetReadLimit MinMaxMessageSize; NewTicker MinMeasurementInterval] ++ tr)) as [Hpc Hpf].
  { destruct e; try discriminate; split; repeat constructor; assumption. }
  split; [| split; [| reflexivity]].
  - eexists. split; [| split; [exact Hpc | exact Hpf]].
    destruct e; try discriminate; simpl; reflexivity.
  - replace (close_frames _) with
      (close_frames (([Upgrade (http.Add ∅ "Sec-WebSocket-Protocol" SecWebSocketProtocol) true;
                     SetReadLimit MinMaxMessageSize; NewTicker MinMeasurementInterval] ++ tr)
                     ++ [WriteControl websocket.CloseMessage
                 (websocket.FormatCloseMessage websocket.CloseNormalClosure "")
                 (Add (close_now env) defaultTimeout);
               TickerStop; ConnClose])).
    + rewrite close_frames_app, (no_close_count _ Hpc). reflexivity.
    + f_equal. destruct e; try discriminate; simpl; reflexivity.
Qed.

(** The payload of the prepared message is always [bufferSize] bytes long,
    whatever [rand.Read] delivered. *)
Lemma randomData_length (env : Env) :
  Z.of_nat (length (randomData env)) = bufferSize.
Proof.
  unfold randomData. rewrite length_take, length_app, length_replicate.
  change bufferSize with 8192. lia.
Qed.


(** *** The byte counter *)

Lemma data_frames_app (a b : list Event) :
  data_frames (a ++ b) = data_frames a + data_frames b.
Proof. unfold data_frames. rewrite filter_app, length_app. lia. Qed.

Lemma data_frames_nonneg (tr : list Event) : 0 <= data_frames tr.
Proof. unfold data_frames. lia. Qed.

Lemma data_frames_cons (ev : Event) (tr : list Event) :
  data_frames (ev :: tr) = (if is_data_frame ev then 1 else 0) + data_frames tr.
Proof.
  unfold data_frames. rewrite filter_cons.
  destruct (is_data_frame ev); simpl; [| reflexivity].
  rewrite Nat2Z.inj_succ. lia.
Qed.

(** A measurement message in a list that is the middle of a longer one. *)
Lemma split_middle (a tr c pre post : list Event) (m : Measurement) (ok : bool) :
  a ++ tr ++ c = pre ++ WriteJSON m ok :: post ->
  measurements a = [] -> measurements c = [] ->
  exists pre' post', pre = a ++ pre' /\ tr = pre' ++ WriteJSON m ok :: post'.
Proof.
  assert (forall l p q, l = p ++ WriteJSON m ok :: q -> measurements l = [] -> False) as Hno.
  { intros l p. revert l. induction p as [| x p IH]; intros l q -> H; simpl in H.
    - discriminate.
    - destruct x; try discriminate; exact (IH _ _ eq_refl H). }
  revert pre. induction a as [| x a IH]; intros pre H Ha Hc; simpl in *.
  - apply app_eq_app in H as [l [[-> H] | [-> H]]].
    + destruct l as [| y l]; simpl in H.
      * exfalso. exact (Hno _ [] _ (eq_sym H) Hc).
      * injection H as <- ->. exists pre, l. split; reflexivity.
    + exfalso. exact (Hno _ _ _ H Hc).
  - destruct pre as [| y pre]; simpl in H.
    + injection H as -> _. discriminate.
    + injection H as <- H.
      destruct (IH pre H) as (pre' & post' & -> & ->); [destruct x; try discriminate; exact Ha | exact Hc |].
      exists pre', post'. split; reflexivity.
Qed.

Section Counter.

Variable d : Duration.
Variable fd : Z.
Variable buffer : websocket.PreparedMessage.
Variable t0 : Time.

Local Abbreviation run := (loop defaultTimeout d fd buffer t0).

(** The counter reported by a measurement is the int64 sum of the initial
    counter and of 8192 for each data frame sent before it. *)
Lemma loop_numbytes (l : list Step) (count : Z) (bw : float64) (tr : list Event) (e : Exit)
    (pre post : list Event) (m : Measurement) (ok : bool) :
  run l count bw = (tr, e) ->
  minInt64 <= count <= maxInt64 ->
  tr = pre ++ WriteJSON m ok :: post ->
  NumBytes m = wrap64 (count + bufferSize * data_frames pre).
Proof.
  revert count bw tr e pre.
  induction l as [| [t sample now werr | now now' werr] l IH]; intros c bw tr e pre; simpl.
  - intros [= <- <-] _ H. destruct pre; discriminate.
  - destruct (if negb (fd =? -1) then _ else _) as [running bw'].
    intros HL Hc H.
    assert (forall tr', tr = SetWriteDeadline (Add now defaultTimeout)
                          :: WriteJSON {| Elapsed := Nanoseconds (Sub t t0); NumBytes := c |} (negb werr)
                          :: tr' ->
             (forall pre', tr' = pre' ++ WriteJSON m ok :: post ->
                           NumBytes m = wrap64 (c + bufferSize * data_frames pre')) ->
             NumBytes m = wrap64 (c + bufferSize * data_frames pre)) as Hstep.
    { intros tr' -> Hrest.
      destruct pre as [| x pre]; [discriminate |]. injection H as <- H.
      destruct pre as [| y pre].
      - injection H as <- _ _. simpl. rewrite Z.mul_0_r, Z.add_0_r, wrap64_small; [reflexivity | exact Hc].
      - injection H as <- H. rewrite !data_frames_cons. simpl. apply Hrest. exact H. }
    destruct werr.
    { injection HL as <- <-. apply (Hstep []); [reflexivity |].
      intros pre' Hp. destruct pre'; discriminate. }
    destruct running.
    + destruct (run l c bw') as [tr' e'] eqn:HL'. injection HL as <- <-.
      apply (Hstep tr'); [reflexivity |].
      intros pre' Hp. exact (IH _ _ _ _ _ HL' Hc Hp).
    + injection HL as <- <-. apply (Hstep []); [reflexivity |].
      intros pre' Hp. destruct pre'; discriminate.
  - destruct (Sub now t0 >=? d).
    { intros [= <- <-] _ H. destruct pre; discriminate. }
    destruct werr.
    { intros [= <- <-] _ H.
      destruct pre as [| x [| y [| z pre]]]; discriminate. }
    destruct (run l _ bw) as [tr' e'] eqn:HL'.
    intros [= <- <-] Hc H.
    destruct pre as [| x pre]; [discriminate |]. injection H as <- H.
    destruct pre as [| y pre]; [discriminate |]. injection H as <- H.
    rewrite !data_frames_cons. simpl.
    rewrite (IH _ _ _ _ _ HL' (wrap64_range _) H).
    rewrite wrap64_add_l. f_equal. lia.
Qed.

(** With a clock that advances, every data frame is sent at its own
    nanosecond before [t0 + d]: at most [t0 + d - lo] frames are sent from
    the clock reading [lo] on. *)
Lemma loop_frames_bound (l : list Step) (lo : Time) (count : Z) (bw : float64)
    (tr : list Event) (e : Exit) :
  run l count bw = (tr, e) ->
  increasing lo (check_times l) = true ->
  t0 <= lo ->
  d <= maxInt64 ->
  data_frames tr <= Z.max 0 (t0 + d - lo).
Proof.
  intros HL Hinc Hlo Hd. revert lo count bw tr e HL Hinc Hlo.
  induction l as [| [t sample now werr | now now' werr] l IH]; intros lo c bw tr e; simpl.
  - intros [= <- <-] _ _. unfold data_frames. simpl. lia.
  - destruct (if negb (fd =? -1) then _ else _) as [running bw'].
    intros HL Hinc Hlo.
    destruct werr; [injection HL as <- <-; rewrite !data_frames_cons; unfold data_frames; simpl; lia |].
    destruct running.
    + destruct (run l c bw') as [tr' e'] eqn:HL'. injection HL as <- <-.
      rewrite !data_frames_cons. simpl. exact (IH _ _ _ _ _ HL' Hinc Hlo).
    + injection HL as <- <-. rewrite !data_frames_cons; unfold data_frames; simpl; lia.
  - intros HL Hinc Hlo. apply andb_true_iff in Hinc as [H1 Hinc]. apply Z.leb_le in H1.
    destruct (Sub now t0 >=? d) eqn:Hge.
    { injection HL as <- <-. unfold data_frames. simpl. lia. }
    rewrite Z.geb_leb in Hge. apply Z.leb_gt in Hge.
    assert (now - t0 < d) as Hlt.
    { unfold Sub, minInt64, maxInt64 in *. lia. }
    destruct werr; [injection HL as <- <-; rewrite !data_frames_cons; unfold data_frames; simpl; lia |].
    destruct (run l _ bw) as [tr' e'] eqn:HL'. injection HL as <- <-.
    rewrite !data_frames_cons. simpl.
    assert (t0 <= now + 1) as Hlo' by lia.
    pose proof (IH _ _ _ _ _ HL' Hinc Hlo'). lia.
Qed.

End Counter.

Lemma data_frames_prefix (pre post : list Event) :
  data_frames pre <= data_frames (pre ++ post).
Proof. rewrite data_frames_app. pose proof (data_frames_nonneg post). lia. Qed.

(** C6.  In a session, the [NumBytes] field of every measurement message the
    handler emits is 8192 times the number of binary data frames sent before
    it since the start of the session, and [NumBytes] never decreases from
    one measurement message to a later one.  A session is a run in which the
    int64 counter cannot wrap: one whose clock advances (there are then at
    most as many data frames as nanoseconds in the duration, 30 s at most),
    or one with less than 2^50 data frames. *)
Theorem numbytes_counts_data_frames (w : http.ResponseWriter) (request : http.Request) (env : Env) :
  clock_advances env \/ data_frames (trace (handler w request env)) < 2 ^ 50 ->
  (forall pre m ok post,
     trace (handler w request env) = pre ++ WriteJSON m ok :: post ->
     NumBytes m = 8192 * data_frames pre) /\
  (forall pre m1 ok1 mid m2 ok2 post,
     trace (handler w request env) = pre ++ WriteJSON m1 ok1 :: mid ++ WriteJSON m2 ok2 :: post ->
     NumBytes m1 <= NumBytes m2).
Proof.
  intros Hsession.
  assert (forall pre m ok post,
     trace (handler w request env) = pre ++ WriteJSON m ok :: post ->
     NumBytes m = 8192 * data_frames pre) as Hmain.
  { revert Hsession. unfold ServeHTTP.
    destruct (queryDuration request) as [d |] eqn:HQ;
      [| intros _ pre m ok post H; destruct pre; discriminate].
    apply queryDuration_range in HQ.
    unfold serve.
    destruct (negb _); [intros _ pre m ok post H; destruct pre; discriminate |].
    destruct (upgrade_err env).
    { intros _ pre m ok post H. destruct pre as [| x [| y pre]]; discriminate. }
    destruct (prepare_err env).
    { intros _ pre m ok post H. destruct pre as [| x [| y [| z [| z' pre]]]]; discriminate. }
    destruct (loop _ _ _ _ _ _ _ _) as [tr e] eqn:HL.
    cbn [trace]. intros Hsession pre m ok post H.
    assert (data_frames tr < 2 ^ 50) as Hfew.
    { destruct Hsession as [Hclock | Hfew].
      - unfold maxDuration, Second in HQ.
        pose proof (loop_frames_bound _ _ _ _ _ _ _ _ _ _ HL Hclock ltac:(lia)
                      ltac:(unfold maxInt64; lia)) as Hb.
        lia.
      - rewrite !data_frames_app in Hfew.
        pose proof (data_frames_nonneg
                      [Upgrade (http.Add ∅ "Sec-WebSocket-Protocol" SecWebSocketProtocol) true;
                       SetReadLimit MinMaxMessageSize]).
        pose proof (data_frames_nonneg [NewTicker MinMeasurementInterval]).
        match type of Hfew with _ + (_ + (_ + ?c)) < _ =>
          assert (0 <= c) by apply data_frames_nonneg end.
        lia. }
    rewrite app_assoc in H.
    apply split_middle in H as (pre' & post' & -> & Htr);
      [| reflexivity | destruct e; reflexivity].
    rewrite data_frames_app.
    replace (data_frames (_ ++ [NewTicker MinMeasurementInterval])) with 0 by reflexivity.
    rewrite (loop_numbytes _ _ _ _ _ _ _ _ _ _ _ _ _ HL ltac:(unfold minInt64, maxInt64; lia) Htr).
    pose proof (data_frames_prefix pre' (WriteJSON m ok :: post')) as Hp.
    rewrite <- Htr in Hp. pose proof (data_frames_nonneg pre').
    change bufferSize with 8192.
    rewrite wrap64_small; [lia | unfold minInt64, maxInt64; lia]. }
  split; [exact Hmain |].
  intros pre m1 ok1 mid m2 ok2 post H.
  rewrite (Hmain _ _ _ _ H).
  replace (pre ++ WriteJSON m1 ok1 :: mid ++ WriteJSON m2 ok2 :: post)
    with ((pre ++ WriteJSON m1 ok1 :: mid) ++ WriteJSON m2 ok2 :: post) in H
    by (rewrite <- app_assoc; reflexivity).
  rewrite (Hmain _ _ _ _ H).
  pose proof (data_frames_prefix pre (WriteJSON m1 ok1 :: mid)). lia.
Qed.

(** C8 (as amended).  The loop does not leave its sending phase before the
    requested duration has elapsed: when it ends by the duration check, it
    ends at the first check (an iteration with no tick pending) whose clock
    reading is at least the requested duration after the start, every
    earlier check having read less.  And it does end there: in a session
    upgraded and prepared without error, the loop reaches a check reading at
    least the duration that comes after iterations without a failed write
    and without a stop decision, and ends by it. *)
Theorem loop_ends_at_first_late_check (w : http.ResponseWriter) (request : http.Request)
    (env : Env) (now : Time) :
  (exit (handler w request env) = Expired now ->
   exists duration pre now' werr post,
     queryDuration request = Some duration /\
     duration <= now - start env /\
     steps env = pre ++ Default now now' werr :: post /\
     Forall (fun t => Sub t (start env) < duration) (check_times pre) /\
     no_failed_write (trace (handler w request env))) /\
  (forall duration pre now' werr post,
     queryDuration request = Some duration ->
     http.Get (http.Header_ request) "Sec-WebSocket-Protocol" = SecWebSocketProtocol ->
     upgrade_err env = false -> prepare_err env = false ->
     steps env = pre ++ Default now now' werr :: post ->
     Forall (fun t => Sub t (start env) < duration) (check_times pre) ->
     Forall (fun s => write_fails s = false) pre ->
     never_stops (bbr_fd env) zero pre = true ->
     duration <= Sub now (start env) ->
     exit (handler w request env) = Expired now).
Proof.
  split.
  - unfold ServeHTTP.
    destruct (queryDuration request) as [d |] eqn:HQ; [| discriminate].
    apply queryDuration_range in HQ.
    unfold serve.
    destruct (negb _); [discriminate |].
    destruct (upgrade_err env); [discriminate |].
    destruct (prepare_err env); [discriminate |].
    destruct (loop _ _ _ _ _ _ _ _) as [tr e] eqn:HL.
    cbn [trace exit]. intros ->.
    destruct (loop_expired _ _ _ _ _ _ _ _ _ HL) as (H1 & pre & now' & werr & post & Hs & HF).
    destruct (loop_trace _ _ _ _ _ _ _ _ _ HL) as [_ Hf].
    exists d, pre, now', werr, post. repeat split; try assumption.
    + unfold Sub, minInt64, maxInt64 in H1. lia.
    + unfold no_failed_write in *. repeat constructor.
      apply Forall_app. split; [exact Hf | repeat constructor].
  - intros d pre now' werr post HQ Hp Hu Hpr Hs Hchk Hw Hns Hd.
    unfold ServeHTTP. rewrite HQ. unfold serve.
    apply String.eqb_eq in Hp. rewrite Hp, Hu, Hpr. cbn [negb].
    rewrite Hs.
    pose proof (loop_reaches_check d (bbr_fd env)
                  {| websocket.messageType := websocket.BinaryMessage;
                     websocket.payload := randomData env |} (start env)
                  pre post now now' werr 0 zero Hchk Hw Hns Hd) as HR.
    destruct (loop _ _ _ _ _ _ _ _) as [tr e]. cbn [snd] in HR. cbn [exit]. exact HR.
Qed.


End Properties.

(** ** The properties on the sample values *)

(** The three cases of C4 on requests with [duration=5], [duration=abc] and
    no [duration]. *)
Lemma duration_validation_witness :
  sampleHandler freshWriter (requestWith {[ "duration" := ["5"] ]}) sampleEnv =
    serve sampleProtocol sampleMessageSize sampleInterval sampleTimeout (5 * Second)
      freshWriter (requestWith {[ "duration" := ["5"] ]}) sampleEnv /\
  http.status (writer (sampleHandler freshWriter
                         (requestWith {[ "duration" := ["abc"] ]}) sampleEnv)) = Some 400 /\
  sampleHandler freshWriter (requestWith ∅) sampleEnv =
    serve sampleProtocol sampleMessageSize sampleInterval sampleTimeout (10 * Second)
      freshWriter (requestWith ∅) sampleEnv.
Proof.
  split; [| split].
  - apply (proj1 (duration_validation sampleProtocol sampleMessageSize sampleInterval
                    sampleTimeout freshWriter (requestWith {[ "duration" := ["5"] ]})
                    sampleEnv) 5).
    + vm_compute. reflexivity.
    + lia.
  - apply (proj1 (proj2 (duration_validation sampleProtocol sampleMessageSize sampleInterval
                    sampleTimeout freshWriter (requestWith {[ "duration" := ["abc"] ]})
                    sampleEnv))).
    + vm_compute. discriminate.
    + vm_compute. discriminate.
    + reflexivity.
  - apply (proj2 (proj2 (duration_validation sampleProtocol sampleMessageSize sampleInterval
                    sampleTimeout freshWriter (requestWith ∅) sampleEnv))).
    vm_compute. reflexivity.
Defined.

(** C4, as stated, fails on a parameter supplied with an empty value: the
    empty string is not an integer, yet the handler does not answer 400; it
    upgrades the connection and runs the subtest. *)
Lemma empty_duration_not_rejected :
  http.Query (requestWith {[ "duration" := [""] ]}) !! "duration" = Some [""] /\
  strconv.Atoi "" = None /\
  http.status (writer (sampleHandler freshWriter
                         (requestWith {[ "duration" := [""] ]}) sampleEnv)) = None /\
  head (trace (sampleHandler freshWriter (requestWith {[ "duration" := [""] ]}) sampleEnv)) =
    Some (Upgrade {[ "Sec-Websocket-Protocol" := [sampleProtocol] ]} true) /\
  exit (sampleHandler freshWriter (requestWith {[ "duration" := [""] ]}) sampleEnv) =
    Expired 10100000000.
Proof. vm_compute. repeat split. Qed.

(** C5 on a request with another subprotocol and on a request without the
    header. *)
Lemma subprotocol_mismatch_witness :
  http.status (writer (sampleHandler freshWriter
                         {| http.Query := {[ "duration" := ["5"] ]};
                            http.Header_ := {[ "Sec-Websocket-Protocol" := ["ndt"] ]} |}
                         sampleEnv)) = Some 400 /\
  trace (sampleHandler freshWriter {| http.Query := ∅; http.Header_ := ∅ |} sampleEnv) = [].
Proof.
  split.
  - apply (subprotocol_mismatch sampleProtocol sampleMessageSize sampleInterval sampleTimeout
             freshWriter
             {| http.Query := {[ "duration" := ["5"] ]};
                http.Header_ := {[ "Sec-Websocket-Protocol" := ["ndt"] ]} |} sampleEnv).
    + reflexivity.
    + left. vm_compute. discriminate.
  - apply (subprotocol_mismatch sampleProtocol sampleMessageSize sampleInterval sampleTimeout
             freshWriter {| http.Query := ∅; http.Header_ := ∅ |} sampleEnv).
    + reflexivity.
    + right. split; [vm_compute; reflexivity | discriminate].
Defined.


(** C7 on the session [brokenEnv]. *)
Lemma write_error_skips_close_witness :
  exit (sampleHandler freshWriter (requestWith ∅) brokenEnv) = WriteFailed /\
  close_frames (trace (sampleHandler freshWriter (requestWith ∅) brokenEnv)) = 0%nat.
Proof.
  destruct (write_error_skips_close sampleProtocol sampleMessageSize sampleInterval
              sampleTimeout freshWriter (requestWith ∅) brokenEnv) as (H1 & _ & H3).
  - vm_compute. repeat (first [apply Exists_cons_hd; reflexivity | apply Exists_cons_tl]).
  - split; [exact H1 | exact H3].
Defined.

(** C9 on the session [sampleEnv], which ends by the duration check. *)
Lemma normal_exit_sends_close_witness :
  close_frames (trace (sampleHandler freshWriter (requestWith ∅) sampleEnv)) = 1%nat.
Proof.
  apply (normal_exit_sends_close sampleProtocol sampleMessageSize sampleInterval
           sampleTimeout freshWriter (requestWith ∅) sampleEnv).
  vm_compute. reflexivity.
Defined.

(** C6 on the session [sampleEnv]: its one measurement message reports the
    8192 bytes of the one data frame sent before it. *)
Lemma numbytes_counts_data_frames_witness :
  clock_advances sampleEnv /\
  map NumBytes (measurements (trace (sampleHandler freshWriter (requestWith ∅) sampleEnv))) =
    [8192] /\
  (forall pre m ok post,
     trace (sampleHandler freshWriter (requestWith ∅) sampleEnv) = pre ++ WriteJSON m ok :: post ->
     NumBytes m = 8192 * data_frames pre).
Proof.
  assert (clock_advances sampleEnv) as H by (vm_compute; reflexivity).
  split; [exact H |]. split; [vm_compute; reflexivity |].
  apply (numbytes_counts_data_frames sampleProtocol sampleMessageSize sampleInterval
           sampleTimeout freshWriter (requestWith ∅) sampleEnv (or_introl H)).
Defined.

(** C8 (as amended) on the session [sampleEnv] with [duration=2]. *)
Lemma loop_ends_at_first_late_check_witness :
  exit (sampleHandler freshWriter (requestWith {[ "duration" := ["2"] ]}) sampleEnv) =
    Expired 10100000000 /\
  exists duration pre now' werr post,
    queryDuration (requestWith {[ "duration" := ["2"] ]}) = Some duration /\
    duration <= 10100000000 - start sampleEnv /\
    steps sampleEnv = pre ++ Default 10100000000 now' werr :: post /\
    Forall (fun t => Sub t (start sampleEnv) < duration) (check_times pre) /\
    no_failed_write (trace (sampleHandler freshWriter
                              (requestWith {[ "duration" := ["2"] ]}) sampleEnv)).
Proof.
  assert (exit (sampleHandler freshWriter (requestWith {[ "duration" := ["2"] ]}) sampleEnv) =
          Expired 10100000000) as E.
  { apply (proj2 (loop_ends_at_first_late_check sampleProtocol sampleMessageSize sampleInterval
             sampleTimeout freshWriter (requestWith {[ "duration" := ["2"] ]}) sampleEnv
             10100000000) (2 * Second)
             [Default 1000 1001 false;
              Tick 250000000 (Some (of_Z 100, of_Z 3000)) 250000100 false;
              Default 250001000 250001001 false] 10100000001 false []).
    - vm_compute. reflexivity.
    - vm_compute. reflexivity.
    - reflexivity.
    - reflexivity.
    - reflexivity.
    - repeat constructor.
    - repeat constructor.
    - vm_compute. reflexivity.
    - vm_compute. discriminate. }
  split; [exact E |].
  apply (proj1 (loop_ends_at_first_late_check sampleProtocol sampleMessageSize sampleInterval
           sampleTimeout freshWriter (requestWith {[ "duration" := ["2"] ]}) sampleEnv
           10100000000) E).
Defined.

(** C8, as stated, fails on the upper bound: in the session [slowEnv] of
    [duration=2] no write fails and the stopping rule never fires, and the
    loop leaves its sending phase 2.3001 s after the start, later than the
    duration plus one measurement interval of 250 ms. *)
Lemma slow_write_delays_exit :
  queryDuration (requestWith {[ "duration" := ["2"] ]}) = Some (2 * Second) /\
  exit (sampleHandler freshWriter (requestWith {[ "duration" := ["2"] ]}) slowEnv) =
    Expired 2300100000 /\
  forallb (fun ev => negb (is_failed_write ev))
    (trace (sampleHandler freshWriter (requestWith {[ "duration" := ["2"] ]}) slowEnv)) = true /\
  2300100000 - start slowEnv > 2 * Second + sampleInterval.
Proof. vm_compute. repeat split. Qed.

(** C1, as stated, fails where [0.25 * prev] underflows: for the smallest
    positive float64 as both samples the exact values satisfy the formula
    (the difference 0 is below a quarter of 2^-1074), and the function
    returns false, the quarter being rounded to 0. *)
Lemma underflow_breaks_formula :
  valid smallest_nonzero = true /\
  geb smallest_nonzero zero = true /\
  mul quarter smallest_nonzero = zero /\
  stoppable_spec (value smallest_nonzero) (value smallest_nonzero) /\
  stoppableAccordingToBW smallest_nonzero smallest_nonzero = false.
Proof.
  split; [reflexivity |]. split; [reflexivity |]. split; [reflexivity |].
  split; [| reflexivity].
  apply stoppable_spec_ulps. vm_compute. split; [discriminate | reflexivity].
Qed.

(** C1 (as amended) on the sample pairs (100, 120) and (100, 125). *)
Lemma stoppable_matches_formula_witness :
  (stoppableAccordingToBW (of_Z 100) (of_Z 120) = true <->
   stoppable_spec (value (of_Z 100)) (value (of_Z 120))) /\
  (stoppableAccordingToBW (of_Z 100) (of_Z 125) = true <->
   stoppable_spec (value (of_Z 100)) (value (of_Z 125))).
Proof.
  split.
  - apply (proj1 stoppable_matches_formula (of_Z 100) (of_Z 120)); reflexivity.
  - apply (proj1 stoppable_matches_formula (of_Z 100) (of_Z 125)); reflexivity.
Defined.

(** C3, as stated, fails: with a previous sample of zero and a current
    sample of 120 the rule is false. *)
Lemma zero_prev_sample_not_stoppable :
  geb (of_Z 120) zero = true /\
  stoppableAccordingToBW zero (of_Z 120) = false.
Proof. split; reflexivity. Qed.

(** C3 (as amended) on the samples 0 and 120. *)
Lemma zero_prev_never_stoppable_witness :
  ltb (sub (of_Z 120) zero) (mul quarter zero) = false /\
  stoppableAccordingToBW zero (of_Z 120) = false.
Proof.
  destruct (zero_prev_never_stoppable false (of_Z 120)) as (_ & H2 & H3).
  - reflexivity.
  - split; [exact H2 | exact H3].
Defined.

(** * More properties of the handler *)

(** ** Lists of events *)

Lemma occurrences_app (p : Event -> bool) (a b : list Event) :
  occurrences p (a ++ b) = (occurrences p a + occurrences p b)%nat.
Proof. unfold occurrences. rewrite filter_app, length_app. reflexivity. Qed.

Lemma occurrences_cons (p : Event -> bool) (ev : Event) (tr : list Event) :
  occurrences p (ev :: tr) = ((if p ev then 1 else 0) + occurrences p tr)%nat.
Proof.
  unfold occurrences. rewrite filter_cons.
  destruct (p ev); reflexivity.
Qed.

Lemma occurrences_none (p : Event -> bool) (tr : list Event) :
  Forall (fun ev => p ev = false) tr -> occurrences p tr = 0%nat.
Proof.
  induction 1 as [| ev tr Hev _ IH]; [reflexivity |].
  rewrite occurrences_cons, Hev, IH. reflexivity.
Qed.

(** An event of kind [p] in the middle part of a trace whose outer parts
    have no event of that kind. *)
Lemma split_kind (p : Event -> bool) (a tr c pre post : list Event) (ev : Event) :
  a ++ tr ++ c = pre ++ ev :: post ->
  p ev = true ->
  Forall (fun x => p x = false) a -> Forall (fun x => p x = false) c ->
  exists pre' post', pre = a ++ pre' /\ tr = pre' ++ ev :: post'.
Proof.
  intros H Hev Ha Hc.
  assert (forall l q1 q2, l = q1 ++ ev :: q2 -> Forall (fun x => p x = false) l -> False) as Hno.
  { intros l q1 q2 -> HF. apply Forall_app in HF as [_ HF].
    apply Forall_cons in HF as [HF _]. congruence. }
  revert pre H. induction Ha as [| x a Hx Ha IH]; intros pre H; simpl in H.
  - apply app_eq_app in H as [l [[-> H] | [-> H]]].
    + destruct l as [| y l]; simpl in H.
      * exfalso. exact (Hno _ [] _ (eq_sym H) Hc).
      * injection H as <- ->. exists pre, l. split; reflexivity.
    + exfalso. exact (Hno _ _ _ H Hc).
  - destruct pre as [| y pre]; simpl in H.
    + injection H as -> _. congruence.
    + injection H as <- H. destruct (IH pre H) as (pre' & post' & -> & ->).
      exists pre', post'. split; reflexivity.
Qed.

(** In a trace of deadline and write pairs, every write comes right after a
    [SetWriteDeadline], and there is nothing but deadlines and writes. *)
Lemma paired_write_after_deadline (tr pre post : list Event) (ev : Event) :
  deadline_then_write tr = true ->
  tr = pre ++ ev :: post -> is_write ev = true ->
  exists pre' t, pre = pre' ++ [SetWriteDeadline t].
Proof.
  revert pre. induction tr as [tr IH] using (induction_ltof1 _ (@length Event)).
  unfold ltof in IH. intros pre Hp H Hev.
  destruct tr as [| a [| b tr']]; try discriminate.
  - destruct pre; discriminate.
  - destruct a; discriminate.
  - assert (deadline_then_write tr' = true /\ (exists t, a = SetWriteDeadline t) /\
            is_write b = true) as (Hp' & [t ->] & Hb).
    { destruct a; try discriminate; destruct b; try discriminate;
        simpl in Hp; repeat split; eauto. }
    destruct pre as [| x pre]; [injection H as <- _; discriminate |].
    injection H as <- H.
    destruct pre as [| y pre].
    + exists [], t. reflexivity.
    + injection H as <- H.
      destruct (IH tr' ltac:(simpl; lia) pre Hp' H Hev) as (pre' & t' & ->).
      exists (SetWriteDeadline t :: b :: pre'), t'. reflexivity.
Qed.

Lemma paired_kinds (tr : list Event) :
  deadline_then_write tr = true ->
  Forall (fun ev => match ev with
                    | SetWriteDeadline _ | WriteJSON _ _ | WritePreparedMessage _ _ => True
                    | _ => False
                    end) tr.
Proof.
  induction tr as [tr IH] using (induction_ltof1 _ (@length Event)).
  unfold ltof in IH. intros Hp.
  destruct tr as [| a [| b tr']]; [constructor | destruct a; discriminate |].
  destruct a; try discriminate; destruct b; try discriminate;
    (constructor; [exact I |]; constructor; [exact I |]; apply IH; [simpl; lia | exact Hp]).
Qed.

(** The last event of a trace, of a kind that occurs nowhere before it, is
    the only one of its kind. *)
Lemma unique_last (p : Event -> bool) (mid pre post : list Event) (x : Event) :
  Forall (fun ev => p ev = false) mid -> p x = true ->
  mid ++ [x] = pre ++ x :: post -> post = [].
Proof.
  intros Hmid Hx H.
  apply app_eq_app in H as [l [[-> H] | [-> H]]].
  - destruct l as [| y l]; [injection H as ->; reflexivity |].
    injection H as <- _. apply Forall_app in Hmid as [_ Hmid].
    apply Forall_cons in Hmid as [Hmid _]. congruence.
  - destruct l as [| y l]; [injection H as <-; reflexivity |].
    injection H as _ H. destruct l; discriminate.
Qed.

(** ** The loop *)

(** The last element of a list that has one does not depend on the
    default. *)
Lemma last_cons_default (x : float64) (xs : list float64) (a b : float64) :
  List.last (x :: xs) a = List.last (x :: xs) b.
Proof.
  revert x. induction xs as [| y ys IH]; intros x; [reflexivity |].
  change (List.last (y :: ys) a = List.last (y :: ys) b). apply IH.
Qed.

Section MoreLoopFacts.

Variable defaultTimeout : Duration.
Variable d : Duration.
Variable fd : Z.
Variable buffer : websocket.PreparedMessage.
Variable t0 : Time.

Local Abbreviation run := (loop defaultTimeout d fd buffer t0).

(** What a tick makes of the retained bandwidth and of [running]. *)
Lemma tick_decision (sample : option (float64 * float64)) (bandwidth : float64) :
  (if negb (fd =? -1)
   then match sample with
        | Some (bw, _) => (negb (stoppableAccordingToBW bandwidth bw), bw)
        | None => (true, bandwidth)
        end
   else (true, bandwidth)) =
  match sample with
  | Some (bw, _) =>
      if fd =? -1 then (true, bandwidth)
      else (negb (stoppableAccordingToBW bandwidth bw), bw)
  | None => (true, bandwidth)
  end.
Proof. destruct sample as [[bw rtt] |], (fd =? -1); reflexivity. Qed.

(** The loop's trace is made of deadline and write pairs. *)
Lemma loop_paired (l : list Step) (count : Z) (bw : float64) (tr : list Event) (e : Exit) :
  run l count bw = (tr, e) -> deadline_then_write tr = true.
Proof.
  revert count bw tr e.
  induction l as [| [t sample now werr | now now' werr] l IH]; intros c bw tr e; simpl.
  - intros [= <- <-]. reflexivity.
  - destruct (if negb (fd =? -1) then _ else _) as [running bw'].
    destruct werr; [intros [= <- <-]; reflexivity |].
    destruct running; [| intros [= <- <-]; reflexivity].
    destruct (run l c bw') as [tr' e'] eqn:HL'. intros [= <- <-].
    simpl. exact (IH _ _ _ _ HL').
  - destruct (Sub now t0 >=? d); [intros [= <- <-]; reflexivity |].
    destruct werr; [intros [= <- <-]; reflexivity |].
    destruct (run l _ bw) as [tr' e'] eqn:HL'. intros [= <- <-].
    simpl. exact (IH _ _ _ _ HL').
Qed.

(** Every data frame the loop writes is the prepared message [buffer]. *)
Lemma loop_buffer (l : list Step) (count : Z) (bw : float64) (tr : list Event) (e : Exit) :
  run l count bw = (tr, e) ->
  Forall (fun ev => match ev with
                    | WritePreparedMessage pm _ => pm = buffer
                    | _ => True
                    end) tr.
Proof.
  revert count bw tr e.
  induction l as [| [t sample now werr | now now' werr] l IH]; intros c bw tr e; simpl.
  - intros [= <- <-]. constructor.
  - destruct (if negb (fd =? -1) then _ else _) as [running bw'].
    destruct werr; [intros [= <- <-]; repeat constructor |].
    destruct running; [| intros [= <- <-]; repeat constructor].
    destruct (run l c bw') as [tr' e'] eqn:HL'. intros [= <- <-].
    repeat constructor. exact (IH _ _ _ _ HL').
  - destruct (Sub now t0 >=? d); [intros [= <- <-]; constructor |].
    destruct werr; [intros [= <- <-]; repeat constructor |].
    destruct (run l _ bw) as [tr' e'] eqn:HL'. intros [= <- <-].
    repeat constructor. exact (IH _ _ _ _ HL').
Qed.

(** The loop ends by the stopping rule at a tick that obtains a sample, with
    the measurement of that tick written last; the rule held between the
    sample obtained last before that tick (the initial [bw] when there was
    none) and the new one, and at no tick before. *)
Lemma loop_stopped (l : list Step) (count : Z) (bw : float64) (tr : list Event) :
  run l count bw = (tr, Stopped) ->
  (exists pre' t m, tr = pre' ++ [SetWriteDeadline t; WriteJSON m true]) /\
  exists pre t cur rtt now post,
    l = pre ++ Tick t (Some (cur, rtt)) now false :: post /\
    fd <> -1 /\
    never_stops fd bw pre = true /\
    Forall (fun s => write_fails s = false) pre /\
    stoppableAccordingToBW (List.last (samples fd pre) bw) cur = true.
Proof.
  revert count bw tr.
  induction l as [| [t sample now werr | now now' werr] l IH]; intros c bw tr; cbn [loop].
  - discriminate.
  - rewrite tick_decision.
    destruct werr.
    { destruct sample as [[cur rtt] |]; [destruct (fd =? -1) |]; discriminate. }
    destruct sample as [[cur rtt] |]; [destruct (fd =? -1) eqn:Efd |].
    + destruct (run l c bw) as [tr' e'] eqn:HL'. intros [= <- ->].
      destruct (IH _ _ _ HL') as [(p' & t' & m & ->) (pre & t1 & c1 & r1 & n1 & post & -> & Hfd & Hns & Hw & Hst)].
      split.
      * eexists (_ :: _ :: p'), t', m. reflexivity.
      * exists (Tick t (Some (cur, rtt)) now false :: pre), t1, c1, r1, n1, post.
        cbn [never_stops samples]. rewrite Efd.
        repeat split; try assumption. constructor; [reflexivity | exact Hw].
    + destruct (stoppableAccordingToBW bw cur) eqn:Hs; cbn [negb].
      * intros [= <-]. split.
        -- eexists [], _, _. reflexivity.
        -- exists [], t, cur, rtt, now, l. cbn [never_stops samples List.last].
           repeat split; try assumption; try constructor.
           intros ->. discriminate.
      * destruct (run l c cur) as [tr' e'] eqn:HL'. intros [= <- ->].
        destruct (IH _ _ _ HL') as [(p' & t' & m & ->) (pre & t1 & c1 & r1 & n1 & post & -> & Hfd & Hns & Hw & Hst)].
        split.
        -- eexists (_ :: _ :: p'), t', m. reflexivity.
        -- exists (Tick t (Some (cur, rtt)) now false :: pre), t1, c1, r1, n1, post.
           cbn [never_stops samples]. rewrite Efd, Hs. cbn [negb andb].
           repeat split; try assumption; [constructor; [reflexivity | exact Hw] |].
           destruct (samples fd pre) as [| x xs] eqn:Es; [exact Hst |].
           change (List.last (cur :: x :: xs) bw) with (List.last (x :: xs) bw).
           rewrite (last_cons_default x xs bw cur). exact Hst.
    + destruct (run l c bw) as [tr' e'] eqn:HL'. intros [= <- ->].
      destruct (IH _ _ _ HL') as [(p' & t' & m & ->) (pre & t1 & c1 & r1 & n1 & post & -> & Hfd & Hns & Hw & Hst)].
      split.
      * eexists (_ :: _ :: p'), t', m. reflexivity.
      * exists (Tick t None now false :: pre), t1, c1, r1, n1, post.
        cbn [never_stops samples].
        repeat split; try assumption. constructor; [reflexivity | exact Hw].
  - destruct (Sub now t0 >=? d); [discriminate |].
    destruct werr; [discriminate |].
    destruct (run l _ bw) as [tr' e'] eqn:HL'. intros [= <- ->].
    destruct (IH _ _ _ HL') as [(p' & t' & m & ->) (pre & t1 & c1 & r1 & n1 & post & -> & Hfd & Hns & Hw & Hst)].
    split.
    + eexists (_ :: _ :: p'), t', m. reflexivity.
    + exists (Default now now' false :: pre), t1, c1, r1, n1, post.
      cbn [never_stops samples].
      repeat split; try assumption. constructor; [reflexivity | exact Hw].
Qed.

(** The loop has ended, one way or another, when it meets a duration check
    at least [d] after [t0]. *)
Lemma loop_finishes (pre post : list Step) (now now' : Time) (werr : bool)
    (count : Z) (bw : float64) :
  d <= Sub now t0 ->
  snd (run (pre ++ Default now now' werr :: post) count bw) <> OutOfSteps.
Proof.
  intros Hd. revert count bw.
  induction pre as [| [t sample tn we | tn tn' we] pre IH]; intros c bw; cbn [app loop].
  - replace (Sub now t0 >=? d) with true by (symmetry; apply Z.geb_le; exact Hd).
    discriminate.
  - destruct (if negb (fd =? -1) then _ else _) as [running bw'].
    destruct we; [discriminate |].
    destruct running; [| discriminate].
    specialize (IH c bw'). destruct (run _ c bw'). exact IH.
  - destruct (Sub tn t0 >=? d); [discriminate |].
    destruct we; [discriminate |].
    specialize (IH (wrap64 (c + bufferSize)) bw). destruct (run _ _ bw). exact IH.
Qed.

(** One measurement per tick, in the order of the ticks, with the time of
    the tick since [t0]. *)
Lemma loop_elapsed (l : list Step) (count : Z) (bw : float64) (tr : list Event) (e : Exit) :
  run l count bw = (tr, e) ->
  map Elapsed (measurements tr) `prefix_of`
    map (fun t => Nanoseconds (Sub t t0)) (tick_times l).
Proof.
  revert count bw tr e.
  induction l as [| [t sample now werr | now now' werr] l IH]; intros c bw tr e; cbn [loop].
  - intros [= <- <-]. apply prefix_nil.
  - destruct (if negb (fd =? -1) then _ else _) as [running bw'].
    cbn [tick_times map].
    destruct werr; [intros [= <- <-]; cbn; apply prefix_cons, prefix_nil |].
    destruct running; [| intros [= <- <-]; cbn; apply prefix_cons, prefix_nil].
    destruct (run l c bw') as [tr' e'] eqn:HL'. intros [= <- <-].
    cbn. apply prefix_cons. exact (IH _ _ _ _ HL').
  - cbn [tick_times].
    destruct (Sub now t0 >=? d); [intros [= <- <-]; apply prefix_nil |].
    destruct werr; [intros [= <- <-]; apply prefix_nil |].
    destruct (run l _ bw) as [tr' e'] eqn:HL'. intros [= <- <-].
    cbn. exact (IH _ _ _ _ HL').
Qed.

(** With a duration of zero (or less) and a clock that never reads less
    than [t0], no data frame is written. *)
Lemma loop_no_data (l : list Step) (count : Z) (bw : float64) (tr : list Event) (e : Exit) :
  d <= 0 ->
  Forall (fun t => t0 <= t) (check_times l) ->
  run l count bw = (tr, e) ->
  Forall (fun ev => match ev with WritePreparedMessage _ _ => False | _ => True end) tr.
Proof.
  intros Hd. revert count bw tr e.
  induction l as [| [t sample now werr | now now' werr] l IH]; intros c bw tr e Hc; cbn [loop].
  - intros [= <- <-]. constructor.
  - destruct (if negb (fd =? -1) then _ else _) as [running bw'].
    cbn [check_times] in Hc.
    destruct werr; [intros [= <- <-]; repeat constructor |].
    destruct running; [| intros [= <- <-]; repeat constructor].
    destruct (run l c bw') as [tr' e'] eqn:HL'. intros [= <- <-].
    repeat constructor. exact (IH _ _ _ _ Hc HL').
  - cbn [check_times] in Hc. apply Forall_cons in Hc as [Hnow Hc].
    replace (Sub now t0 >=? d) with true.
    + intros [= <- <-]. constructor.
    + symmetry. apply Z.geb_le. unfold Sub, minInt64, maxInt64. lia.
Qed.

End MoreLoopFacts.

(** ** The handler *)

Lemma samples_app (fd : Z) (a b : list Step) :
  samples fd (a ++ b) = samples fd a ++ samples fd b.
Proof.
  induction a as [| [t [[bw rtt] |] now werr | now now' werr] a IH]; cbn [app samples];
    try destruct (fd =? -1); cbn [app]; rewrite ?IH; reflexivity.
Qed.

Section MoreProperties.

Variable SecWebSocketProtocol : string.
Variable MinMaxMessageSize : Z.
Variable MinMeasurementInterval : Duration.
Variable defaultTimeout : Duration.

Local Abbreviation handler :=
  (ServeHTTP SecWebSocketProtocol MinMaxMessageSize MinMeasurementInterval defaultTimeout).

(** The response header handed to the upgrader holds the subprotocol and
    nothing else. *)
Lemma upgrade_headers :
  http.Add ∅ "Sec-WebSocket-Protocol" SecWebSocketProtocol =
  {[ "Sec-Websocket-Protocol" := [SecWebSocketProtocol] ]}.
Proof.
  unfold http.Add. cbv zeta.
  change (textproto.CanonicalMIMEHeaderKey "Sec-WebSocket-Protocol")
    with "Sec-Websocket-Protocol".
  reflexivity.
Qed.

(** The four ways a run of the handler goes. *)
Lemma handler_cases (w : http.ResponseWriter) (request : http.Request) (env : Env) :
  ((queryDuration request = None \/
    http.Get (http.Header_ request) "Sec-WebSocket-Protocol" <> SecWebSocketProtocol) /\
   handler w request env = badRequest w) \/
  (exists duration,
     queryDuration request = Some duration /\
     http.Get (http.Header_ request) "Sec-WebSocket-Protocol" = SecWebSocketProtocol /\
     ((upgrade_err env = true /\
       handler w request env =
         {| writer := w;
            trace := [Upgrade {[ "Sec-Websocket-Protocol" := [SecWebSocketProtocol] ]} false];
            exit := UpgradeFailed |}) \/
      (upgrade_err env = false /\ prepare_err env = true /\
       handler w request env =
         {| writer := w;
            trace := [Upgrade {[ "Sec-Websocket-Protocol" := [SecWebSocketProtocol] ]} true;
                      SetReadLimit MinMaxMessageSize; ConnClose];
            exit := PrepareFailed |}) \/
      (upgrade_err env = false /\ prepare_err env = false /\
       exists tr e,
         loop defaultTimeout duration (bbr_fd env)
           {| websocket.messageType := websocket.BinaryMessage;
              websocket.payload := randomData env |} (start env) (steps env) 0 zero = (tr, e) /\
         handler w request env =
           {| writer := w;
              trace := [Upgrade {[ "Sec-Websocket-Protocol" := [SecWebSocketProtocol] ]} true;
                        SetReadLimit MinMaxMessageSize; NewTicker MinMeasurementInterval]
                       ++ tr
                       ++ match e with
                          | Expired _ | Stopped =>
                              [WriteControl websocket.CloseMessage
                                 (websocket.FormatCloseMessage websocket.CloseNormalClosure "")
                                 (Add (close_now env) defaultTimeout);
                               TickerStop; ConnClose]
                          | OutOfSteps => []
                          | _ => [TickerStop; ConnClose]
                          end;
              exit := e |}))).
Proof.
  unfold ServeHTTP.
  destruct (queryDuration request) as [duration |]; [| left; split; [left |]; reflexivity].
  unfold serve. rewrite upgrade_headers.
  destruct (String.eqb_spec (http.Get (http.Header_ request) "Sec-WebSocket-Protocol")
              SecWebSocketProtocol) as [Hp | Hp]; cbn [negb].
  2: { left. split; [right; exact Hp | reflexivity]. }
  right. exists duration. split; [reflexivity |]. split; [exact Hp |].
  destruct (upgrade_err env); [left; split; reflexivity |].
  destruct (prepare_err env); [right; left; repeat split |].
  right; right. split; [reflexivity |]. split; [reflexivity |].
  destruct (loop _ _ _ _ _ _ _ _) as [tr e]. exists tr, e. split; reflexivity.
Qed.

(** A destructuring of [handler_cases] for the proofs below. *)
Ltac handler_cases w request env :=
  destruct (handler_cases w request env)
    as [[Hbad ->]
       | (duration & HQ & Hproto &
          [[Hup ->] | [(Hup & Hprep & ->) | (Hup & Hprep & tr & e & HL & ->)]])];
  cbn [trace exit writer badRequest].


(** X2.  The upgrader is called at most once, before anything else is done,
    only for a request with a valid duration and the server's subprotocol,
    and with a response header that holds that subprotocol and nothing
    else. *)
Theorem upgrade_echoes_subprotocol (w : http.ResponseWriter) (request : http.Request)
    (env : Env) (pre post : list Event) (h : http.Header) (ok : bool) :
  trace (handler w request env) = pre ++ Upgrade h ok :: post ->
  pre = [] /\
  h = {[ "Sec-Websocket-Protocol" := [SecWebSocketProtocol] ]} /\
  ok = negb (upgrade_err env) /\
  http.Get (http.Header_ request) "Sec-WebSocket-Protocol" = SecWebSocketProtocol /\
  queryDuration request <> None.
Proof.
  assert (forall a rest, a = negb (upgrade_err env) ->
            Forall (fun ev => match ev with Upgrade _ _ => False | _ => True end) rest ->
            Upgrade {[ "Sec-Websocket-Protocol" := [SecWebSocketProtocol] ]} a :: rest =
              pre ++ Upgrade h ok :: post ->
            pre = [] /\ h = {[ "Sec-Websocket-Protocol" := [SecWebSocketProtocol] ]} /\
            ok = negb (upgrade_err env)) as Hfirst.
  { intros a rest Ha Hrest H. destruct pre as [| x pre].
    - injection H as <- <- _. auto.
    - exfalso. injection H as _ ->. apply Forall_app in Hrest as [_ Hrest].
      apply Forall_cons in Hrest as [[] _]. }
  handler_cases w request env; intros H.
  - destruct pre; discriminate.
  - apply (Hfirst false []) in H as (H1 & H2 & H3);
      [| rewrite Hup; reflexivity | constructor].
    repeat split; try assumption. congruence.
  - apply (Hfirst true) in H as (H1 & H2 & H3);
      [| rewrite Hup; reflexivity | repeat constructor].
    repeat split; try assumption. congruence.
  - assert (Forall (fun ev => match ev with Upgrade _ _ => False | _ => True end) tr) as Htr.
    { eapply Forall_impl; [apply paired_kinds, (loop_paired _ _ _ _ _ _ _ _ _ _ HL) |].
      intros [] Hk; try exact I; destruct Hk. }
    cbn [app] in H.
    apply (Hfirst true) in H as (H1 & H2 & H3);
      [| rewrite Hup; reflexivity
       | repeat constructor; apply Forall_app; split;
         [exact Htr | destruct e; repeat constructor]].
    repeat split; try assumption. congruence.
Qed.

(** X3.  Whenever the handler has returned, it has closed the connection
    exactly once if the upgrade gave it one and never otherwise, it has
    stopped the ticker exactly once if it created one, and nothing is done
    after [conn.Close()]. *)
Theorem connection_released (w : http.ResponseWriter) (request : http.Request) (env : Env) :
  exit (handler w request env) <> OutOfSteps ->
  occurrences is_conn_close (trace (handler w request env)) =
    occurrences is_upgraded (trace (handler w request env)) /\
  occurrences is_ticker_stop (trace (handler w request env)) =
    occurrences is_new_ticker (trace (handler w request env)) /\
  (occurrences is_upgraded (trace (handler w request env)) <= 1)%nat /\
  (forall pre post, trace (handler w request env) = pre ++ ConnClose :: post -> post = []).
Proof.
  handler_cases w request env; intros Hexit.
  - split; [reflexivity |]. split; [reflexivity |].
    split; [rewrite ?occurrences_cons; cbn; lia |].
    intros pre post H. destruct pre; discriminate.
  - split; [reflexivity |]. split; [reflexivity |].
    split; [rewrite ?occurrences_cons; cbn; lia |].
    intros pre post H. destruct pre as [| x [| y pre]]; discriminate.
  - split; [reflexivity |]. split; [reflexivity |].
    split; [rewrite ?occurrences_cons; cbn; lia |].
    intros pre post H. destruct pre as [| x [| y [| z [| z' pre]]]]; try discriminate.
    injection H as _ _ H. congruence.
  - pose proof (paired_kinds _ (loop_paired _ _ _ _ _ _ _ _ _ _ HL)) as Hk.
    assert (forall p, (forall ev, p ev = true ->
                         match ev with
                         | SetWriteDeadline _ | WriteJSON _ _ | WritePreparedMessage _ _ => False
                         | _ => True
                         end) -> occurrences p tr = 0%nat) as Hzero.
    { intros p Hp. apply occurrences_none. eapply Forall_impl; [exact Hk |].
      intros ev Hev. destruct (p ev) eqn:E; [| reflexivity].
      specialize (Hp ev E). destruct ev; contradiction. }
    rewrite !occurrences_app.
    rewrite (Hzero is_conn_close), (Hzero is_upgraded), (Hzero is_ticker_stop),
      (Hzero is_new_ticker) by (intros []; try discriminate; try exact (fun _ => I);
                                  intros []; try discriminate; exact (fun _ => I)).
    split; [| split; [| split]].
    + destruct e; try congruence; reflexivity.
    + destruct e; try congruence; reflexivity.
    + destruct e; rewrite ?occurrences_cons; cbn; lia.
    + intros pre post H.
      assert (Forall (fun ev => is_conn_close ev = false) tr) as Htr.
      { eapply Forall_impl; [exact Hk |]. intros []; try reflexivity; contradiction. }
      assert (exists c,
                match e with
                | Expired _ | Stopped =>
                    [WriteControl websocket.CloseMessage
                       (websocket.FormatCloseMessage websocket.CloseNormalClosure "")
                       (Add (close_now env) defaultTimeout);
                     TickerStop; ConnClose]
                | OutOfSteps => []
                | _ => [TickerStop; ConnClose]
                end = c ++ [ConnClose] /\
                Forall (fun ev => is_conn_close ev = false) c) as (c & Hc & Hcn).
      { destruct e; try congruence;
          first [ exists [TickerStop]; split; [reflexivity | repeat constructor]
                | eexists [_; TickerStop]; split; [reflexivity | repeat constructor] ]. }
      rewrite Hc in H.
      assert (exists mid,
                Forall (fun ev => is_conn_close ev = false) mid /\
                mid ++ [ConnClose] = pre ++ ConnClose :: post) as (mid & Hmid & Heq).
      { eexists (_ :: _ :: _ :: tr ++ c). split; cycle 1.
        - cbn [app] in H |- *. rewrite <- app_assoc. exact H.
        - repeat constructor. apply Forall_app. split; assumption. }
      exact (unique_last is_conn_close mid pre post ConnClose Hmid eq_refl Heq).
Qed.

(** X4.  Every write of a measurement message or of a data frame comes
    right after a call of [conn.SetWriteDeadline]. *)
Theorem writes_follow_deadline (w : http.ResponseWriter) (request : http.Request)
    (env : Env) (pre post : list Event) (ev : Event) :
  trace (handler w request env) = pre ++ ev :: post ->
  is_write ev = true ->
  exists pre' t, pre = pre' ++ [SetWriteDeadline t].
Proof.
  handler_cases w request env; intros H Hev.
  - destruct pre; discriminate.
  - destruct pre as [| x [| y pre]]; try discriminate. injection H as <- _. discriminate.
  - destruct pre as [| x [| y [| z [| z' pre]]]]; try discriminate;
      injection H; intros; subst; discriminate.
  - apply (split_kind is_write) in H as (pre' & post' & -> & Htr);
      [| exact Hev | repeat constructor | destruct e; repeat constructor].
    destruct (paired_write_after_deadline _ _ _ _ (loop_paired _ _ _ _ _ _ _ _ _ _ HL) Htr Hev)
      as (p & t & ->).
    eexists (_ ++ p), t. rewrite app_assoc. reflexivity.
Qed.

(** X5.  Every data frame of a session is the one message prepared before
    the loop: a binary message whose payload is the [bufferSize] bytes of
    [data]. *)
Theorem data_frames_identical (w : http.ResponseWriter) (request : http.Request)
    (env : Env) (pre post : list Event) (pm : websocket.PreparedMessage) (ok : bool) :
  trace (handler w request env) = pre ++ WritePreparedMessage pm ok :: post ->
  pm = {| websocket.messageType := websocket.BinaryMessage;
          websocket.payload := randomData env |} /\
  Z.of_nat (length (websocket.payload pm)) = bufferSize.
Proof.
  intros H.
  assert (pm = {| websocket.messageType := websocket.BinaryMessage;
                  websocket.payload := randomData env |}) as ->.
  { revert H. handler_cases w request env; intros H.
    - destruct pre; discriminate.
    - destruct pre as [| x [| y pre]]; discriminate.
    - destruct pre as [| x [| y [| z [| z' pre]]]]; discriminate.
    - apply (split_kind (fun ev => match ev with
                                   | WritePreparedMessage _ _ => true
                                   | _ => false
                                   end)) in H as (pre' & post' & -> & Htr);
        [| reflexivity | repeat constructor | destruct e; repeat constructor].
      pose proof (loop_buffer _ _ _ _ _ _ _ _ _ _ HL) as Hb.
      rewrite Htr in Hb. apply Forall_app in Hb as [_ Hb].
      apply Forall_cons in Hb as [Hb _]. exact Hb. }
  split; [reflexivity |]. cbn [websocket.payload].
  unfold randomData. rewrite length_take, length_app, length_replicate.
  change bufferSize with 8192. lia.
Qed.

(** X6.  When the stopping rule ends the loop, the measurement of the tick
    that decided it has been written: the successful write of a measurement
    message is the last write before the close frame. *)
Theorem stop_after_measurement (w : http.ResponseWriter) (request : http.Request) (env : Env) :
  exit (handler w request env) = Stopped ->
  exists pre t m,
    trace (handler w request env) =
      pre ++ [SetWriteDeadline t; WriteJSON m true;
              WriteControl websocket.CloseMessage
                (websocket.FormatCloseMessage websocket.CloseNormalClosure "")
                (Add (close_now env) defaultTimeout);
              TickerStop; ConnClose].
Proof.
  handler_cases w request env; try discriminate. intros ->.
  destruct (loop_stopped _ _ _ _ _ _ _ _ _ HL) as [(p & t & m & ->) _].
  eexists (_ :: _ :: _ :: p), t, m. cbn [app]. rewrite <- app_assoc. reflexivity.
Qed.

(** X7.  The stopping rule ends the loop at a tick that obtains a BBR sample
    [cur], and it is evaluated against the sample obtained last before that
    tick, ticks without a sample being skipped (against the initial zero if
    there was none); at no earlier tick did the rule hold, and no earlier
    write failed. *)
Theorem stop_compares_with_last_sample (w : http.ResponseWriter) (request : http.Request)
    (env : Env) :
  exit (handler w request env) = Stopped ->
  exists pre t cur rtt now post,
    steps env = pre ++ Tick t (Some (cur, rtt)) now false :: post /\
    bbr_fd env <> -1 /\
    stoppableAccordingToBW (List.last (samples (bbr_fd env) pre) zero) cur = true /\
    never_stops (bbr_fd env) zero pre = true /\
    Forall (fun s => write_fails s = false) pre.
Proof.
  handler_cases w request env; try discriminate. intros ->.
  destruct (loop_stopped _ _ _ _ _ _ _ _ _ HL)
    as [_ (pre & t & cur & rtt & now & post & Hs & Hfd & Hns & Hw & Hst)].
  exists pre, t, cur, rtt, now, post. auto.
Qed.

(** X8.  Without a BBR file descriptor, or when no tick obtains a sample,
    the loop never ends by the stopping rule. *)
Theorem no_sample_no_stop (w : http.ResponseWriter) (request : http.Request) (env : Env) :
  bbr_fd env = -1 \/ samples (bbr_fd env) (steps env) = [] ->
  exit (handler w request env) <> Stopped.
Proof.
  intros Hno.
  handler_cases w request env; try discriminate. intros ->.
  destruct (loop_stopped _ _ _ _ _ _ _ _ _ HL)
    as [_ (pre & t & cur & rtt & now & post & Hs & Hfd & _)].
  destruct Hno as [Hno | Hno]; [congruence |].
  rewrite Hs, samples_app in Hno. cbn [samples] in Hno.
  replace (bbr_fd env =? -1) with false in Hno
    by (symmetry; apply Z.eqb_neq; exact Hfd).
  destruct (samples (bbr_fd env) pre); discriminate.
Qed.

(** X9.  The handler has returned by the first duration check whose clock
    reading is at least the duration after the start: the run does not go
    past such a check. *)
Theorem returns_by_late_check (w : http.ResponseWriter) (request : http.Request) (env : Env)
    (d : Duration) (pre post : list Step) (now now' : Time) (werr : bool) :
  queryDuration request = Some d ->
  steps env = pre ++ Default now now' werr :: post ->
  d <= Sub now (start env) ->
  exit (handler w request env) <> OutOfSteps.
Proof.
  intros HQ' Hs Hd.
  handler_cases w request env; try discriminate.
  rewrite HQ' in HQ. injection HQ as <-.
  pose proof (loop_finishes defaultTimeout d (bbr_fd env)
                {| websocket.messageType := websocket.BinaryMessage;
                   websocket.payload := randomData env |} (start env)
                pre post now now' werr 0 zero Hd) as HF.
  rewrite <- Hs, HL in HF. exact HF.
Qed.

(** X10.  A session of [duration=0] writes no data frame at all, the clock
    never reading less than at the start. *)
Theorem zero_duration_sends_no_data (w : http.ResponseWriter) (request : http.Request)
    (env : Env) :
  queryDuration request = Some 0 ->
  Forall (fun t => start env <= t) (check_times (steps env)) ->
  Forall (fun ev => match ev with WritePreparedMessage _ _ => False | _ => True end)
    (trace (handler w request env)).
Proof.
  intros HQ' Hc.
  handler_cases w request env; repeat constructor.
  rewrite HQ' in HQ. injection HQ as <-.
  apply Forall_app. split.
  - exact (loop_no_data _ _ _ _ _ _ _ _ _ _ (Z.le_refl 0) Hc HL).
  - destruct e; repeat constructor.
Qed.

(** X11.  The duration of a subtest is a whole number of seconds between 0
    and 30. *)
Theorem duration_whole_seconds (request : http.Request) (duration : Duration) :
  queryDuration request = Some duration ->
  exists n, 0 <= n <= maxDuration /\ duration = n * Second.
Proof.
  unfold queryDuration.
  destruct (negb _).
  - destruct (strconv.Atoi _) as [value |]; [| discriminate].
    destruct (value <? 0) eqn:H1; [discriminate |].
    destruct (value >? maxDuration) eqn:H2; [discriminate |].
    cbn [orb]. intros [= <-].
    apply Z.ltb_ge in H1. rewrite Z.gtb_ltb in H2. apply Z.ltb_ge in H2.
    exists value. split; [lia |].
    unfold maxDuration, Second in *.
    rewrite wrap64_small; unfold minInt64, maxInt64; lia.
  - intros [= <-]. exists 10. split; [unfold maxDuration; lia | reflexivity].
Qed.

(** X12.  In every run, whatever its length, the [NumBytes] field of a
    measurement message is the int64 value of 8192 times the number of data
    frames sent before it, and a multiple of 8192. *)
Theorem numbytes_int64_count (w : http.ResponseWriter) (request : http.Request) (env : Env)
    (pre post : list Event) (m : Measurement) (ok : bool) :
  trace (handler w request env) = pre ++ WriteJSON m ok :: post ->
  NumBytes m = wrap64 (8192 * data_frames pre) /\
  (8192 | NumBytes m).
Proof.
  intros H.
  assert (NumBytes m = wrap64 (8192 * data_frames pre)) as E.
  { revert H. handler_cases w request env; intros H.
    - destruct pre; discriminate.
    - destruct pre as [| x [| y pre]]; discriminate.
    - destruct pre as [| x [| y [| z [| z' pre]]]]; discriminate.
    - apply split_middle in H as (pre' & post' & -> & Htr);
        [| reflexivity | destruct e; reflexivity].
      rewrite data_frames_app.
      replace (data_frames [_; _; _]) with 0 by reflexivity.
      rewrite (loop_numbytes _ _ _ _ _ _ _ _ _ _ _ _ _ _ HL
                 ltac:(unfold minInt64, maxInt64; lia) Htr).
      reflexivity. }
  split; [exact E |]. rewrite E. unfold wrap64.
  set (n := data_frames pre).
  exists (n + 2 ^ 50 - 2 ^ 51 * ((8192 * n + 2 ^ 63) / 2 ^ 64) - 2 ^ 50).
  pose proof (Z.div_mod (8192 * n + 2 ^ 63) (2 ^ 64) ltac:(lia)) as Hdm.
  lia.
Qed.

(** X13.  The measurement messages follow the ticks: the i-th message of a
    run reports as [Elapsed] the time of the i-th tick since the start, no
    tick being skipped before the loop ends. *)
Theorem elapsed_follows_ticks (w : http.ResponseWriter) (request : http.Request) (env : Env) :
  map Elapsed (measurements (trace (handler w request env))) `prefix_of`
    map (fun t => Sub t (start env)) (tick_times (steps env)).
Proof.
  handler_cases w request env; try apply prefix_nil.
  replace (measurements (_ ++ tr ++ _)) with (measurements tr).
  - exact (loop_elapsed _ _ _ _ _ _ _ _ _ _ HL).
  - cbn [app measurements].
    assert (forall a b, measurements (a ++ b) = measurements a ++ measurements b) as Happ.
    { intros a b. induction a as [| [] a IH]; cbn [app measurements]; rewrite ?IH; reflexivity. }
    rewrite Happ. destruct e; cbn [measurements]; rewrite app_nil_r; reflexivity.
Qed.

End MoreProperties.

(** ** More on the stopping rule *)

(** Swapping the operands of a float64 comparison reverses its result. *)
Lemma SFcompare_swap (x y : float64) :
  SFcompare y x = option_map CompOpp (SFcompare x y).
Proof.
  destruct x as [[] | [] | | [] m1 e1], y as [[] | [] | | [] m2 e2]; try reflexivity;
    cbn [SFcompare option_map]; f_equal;
    rewrite (Z.compare_antisym e1 e2);
    change (Pos.compare_cont Eq m2 m1) with (m2 ?= m1)%positive;
    change (Pos.compare_cont Eq m1 m2) with (m1 ?= m2)%positive;
    rewrite (Pos.compare_antisym m1 m2);
    destruct (e1 ?= e2); cbn [CompOpp]; try reflexivity;
    destruct (m1 ?= m2)%positive; reflexivity.
Qed.

(** X14.  A bandwidth that went down never stops the test: the rule does
    not hold when the current sample is below the previous one. *)
Theorem decrease_never_stops (prev cur : float64) :
  ltb cur prev = true -> stoppableAccordingToBW prev cur = false.
Proof.
  unfold stoppableAccordingToBW, geb, ltb, SFleb, SFltb.
  rewrite (SFcompare_swap cur prev).
  destruct (SFcompare cur prev) as [[] |]; try discriminate. reflexivity.
Qed.

(** The rule does not hold on a sample that is not a finite number. *)
Lemma nonfinite_never_stops (prev cur : float64) :
  is_finite prev = false \/ is_finite cur = false ->
  stoppableAccordingToBW prev cur = false.
Proof.
  unfold stoppableAccordingToBW, geb, ltb, sub, mul, quarter, SFleb, SFltb.
  intros [H | H].
  - destruct prev as [sp | [] | | sp mp ep]; try discriminate;
      destruct cur as [[] | [] | | [] mc ec]; reflexivity.
  - destruct cur as [sc | [] | | sc mc ec]; try discriminate;
      destruct prev as [[] | [] | | [] mp ep]; try reflexivity.
    all: cbn [SFcompare SFsub andb].
    all: match goal with
         | |- context [SFmul ?a ?b ?x ?y] =>
             destruct (SFmul a b x y) as [[] | [] | | [] ? ?]
         end; reflexivity.
Qed.

(** Rounding a mantissa that is not negative keeps the sign it is given. *)
Lemma binary_round_aux_signed (s : bool) (m e : Z) (l : location) :
  0 <= m -> signed s (binary_round_aux prec emax s m e l).
Proof.
  intros Hm.
  assert (forall mrs e' n, 0 <= shr_m mrs -> 0 <= shr_m (fst (shr mrs e' n))) as Hshr.
  { intros mrs e' n H. unfold shr. destruct n as [| p | p]; cbn [fst]; try exact H.
    rewrite shr_m_iter by exact H. apply Z.div_pos; [exact H | apply pow2_pos; lia]. }
  assert (forall m' l', 0 <= m' -> 0 <= shr_m (shr_record_of_loc m' l')) as Hrec.
  { intros m' [| []] H; exact H. }
  unfold binary_round_aux, shr_fexp.
  destruct (shr (shr_record_of_loc m l) e _) as [mrs' e'] eqn:E1.
  assert (0 <= shr_m mrs') as H1.
  { pose proof (Hshr (shr_record_of_loc m l) e
                  (fexp prec emax (Zdigits2 m + e) - e) (Hrec m l Hm)) as H.
    rewrite E1 in H. exact H. }
  assert (0 <= round_nearest_even (shr_m mrs') (loc_of_shr_record mrs')) as H2.
  { unfold round_nearest_even.
    destruct (loc_of_shr_record mrs') as [| []]; try destruct (Z.even _); lia. }
  destruct (shr (shr_record_of_loc (round_nearest_even _ _) loc_Exact) e' _)
    as [mrs'' e''] eqn:E2.
  assert (0 <= shr_m mrs'') as H3.
  { pose proof (Hshr _ e' (fexp prec emax
                  (Zdigits2 (round_nearest_even (shr_m mrs') (loc_of_shr_record mrs')) + e') - e')
                  (Hrec _ loc_Exact H2)) as H.
    rewrite E2 in H. exact H. }
  destruct (shr_m mrs'') as [| q | q]; [reflexivity | | lia].
  destruct (e'' <=? emax - prec); reflexivity.
Qed.

(** A float64 that is not negative is not below one that is not positive. *)
Lemma ltb_signed (x y : float64) : signed false x -> signed true y -> ltb x y = false.
Proof.
  destruct x as [sx | sx | | sx mx ex], y as [sy | sy | | sy my ey]; cbn [signed];
    try contradiction; intros -> ->; reflexivity.
Qed.

(** Comparison of two negative canonical floats. *)
Lemma compare_negative (m1 m2 : positive) (e1 e2 : Z) :
  SFcompare (S754_finite true m1 e1) (S754_finite true m2 e2) =
  SFcompare (S754_finite false m2 e2) (S754_finite false m1 e1).
Proof.
  cbn [SFcompare]. f_equal. rewrite (Z.compare_antisym e1 e2).
  change (Pos.compare_cont Eq m2 m1) with (m2 ?= m1)%positive.
  change (Pos.compare_cont Eq m1 m2) with (m1 ?= m2)%positive.
  rewrite (Pos.compare_antisym m1 m2).
  destruct (e1 ?= e2); reflexivity.
Qed.

(** The rule does not hold on a negative previous sample. *)
Lemma negative_prev_never_stops (mp : positive) (ep : Z) (cur : float64) :
  valid (S754_finite true mp ep) = true -> valid cur = true ->
  stoppableAccordingToBW (S754_finite true mp ep) cur = false.
Proof.
  intros Vp Vc.
  destruct (valid_finite_inv _ _ _ Vp) as [Cp Hep].
  destruct (canonical_inv _ _ Cp) as (Hep' & _ & _).
  apply andb_false_iff.
  assert (signed true (mul quarter (S754_finite true mp ep))) as Hq.
  { unfold mul, SFmul, quarter. cbn [xorb]. apply binary_round_aux_signed. lia. }
  destruct cur as [sc | [] | | [] mc ec].
  - right. apply ltb_signed; [reflexivity | exact Hq].
  - left. reflexivity.
  - right. apply ltb_signed; [reflexivity | exact Hq].
  - left. reflexivity.
  - destruct (valid_finite_inv _ _ _ Vc) as [Cc Hec].
    destruct (canonical_inv _ _ Cc) as (Hec' & _ & _).
    unfold geb, SFleb. rewrite compare_negative, (compare_canonical _ _ _ _ Cc Cp).
    destruct (Z.compare_spec (ulps (S754_finite false mc ec)) (ulps (S754_finite false mp ep)))
      as [Hle | Hle | Hgt]; [| | left; reflexivity].
    all: right; apply ltb_signed; [| exact Hq].
    all: unfold sub, SFsub; cbn [cond_Zopp].
    all: destruct (shl_align_le mc ec (Z.min ec ep) ltac:(lia)) as (mc' & -> & Hvc & _).
    all: destruct (shl_align_le mp ep (Z.min ec ep) ltac:(lia)) as (mp' & -> & Hvp & _).
    all: cbn [fst].
    all: assert (Z.pos mc' <= Z.pos mp') as Hord
           by (unfold ulps in Hle;
               pose proof (pow2_pos (Z.min ec ep + 1074) ltac:(lia)) as HP;
               assert (Z.pos mc * 2 ^ (ec + 1074) = Z.pos mc' * 2 ^ (Z.min ec ep + 1074)) as Uc
                 by (rewrite Hvc, <- Z.mul_assoc, <- Z.pow_add_r by lia; do 2 f_equal; lia);
               assert (Z.pos mp * 2 ^ (ep + 1074) = Z.pos mp' * 2 ^ (Z.min ec ep + 1074)) as Up
                 by (rewrite Hvp, <- Z.mul_assoc, <- Z.pow_add_r by lia; do 2 f_equal; lia);
               rewrite Uc, Up in Hle; nia).
    all: destruct (- Z.pos mc' - - Z.pos mp') as [| D | D] eqn:ED; try lia.
    all: try reflexivity.
    all: cbn [binary_normalize]; unfold binary_round;
         destruct (shl_align _ _ _) as [mz ez]; apply binary_round_aux_signed; lia.
  - right. apply ltb_signed; [| exact Hq].
    destruct (valid_finite_inv _ _ _ Vc) as [Cc Hec].
    destruct (canonical_inv _ _ Cc) as (Hec' & _ & _).
    unfold sub, SFsub; cbn [cond_Zopp].
    destruct (shl_align_le mc ec (Z.min ec ep) ltac:(lia)) as (mc' & -> & Hvc & _).
    destruct (shl_align_le mp ep (Z.min ec ep) ltac:(lia)) as (mp' & -> & Hvp & _).
    cbn [fst].
    destruct (Z.pos mc' - - Z.pos mp') as [| D | D] eqn:ED; try lia.
    cbn [binary_normalize]; unfold binary_round.
    destruct (shl_align _ _ _) as [mz ez]; apply binary_round_aux_signed; lia.
Qed.

(** X15.  The rule holds only between two positive finite samples: it does
    not hold when a sample is NaN or infinite, when the previous sample is
    zero or negative, or when the current sample is zero or negative. *)
Theorem stop_needs_positive_samples (prev cur : float64) :
  valid prev = true -> valid cur = true ->
  stoppableAccordingToBW prev cur = true ->
  exists mp ep mc ec,
    prev = S754_finite false mp ep /\ cur = S754_finite false mc ec.
Proof.
  intros Vp Vc H.
  destruct prev as [sp | sp | | [] mp ep].
  - rewrite stoppable_zero_any in H. discriminate.
  - rewrite nonfinite_never_stops in H by (left; reflexivity). discriminate.
  - rewrite nonfinite_never_stops in H by (left; reflexivity). discriminate.
  - rewrite negative_prev_never_stops in H by assumption. discriminate.
  - destruct cur as [sc | sc | | [] mc ec].
    + discriminate.
    + rewrite nonfinite_never_stops in H by (right; reflexivity). discriminate.
    + discriminate.
    + discriminate.
    + exists mp, ep, mc, ec. split; reflexivity.
Qed.

(** X16.  A bandwidth that stays the same stops the test: on two equal
    finite samples of at least 2^-1020 the rule holds. *)
Theorem equal_samples_stop (prev : float64) :
  valid prev = true -> is_finite prev = true -> geb prev exact_from = true ->
  stoppableAccordingToBW prev prev = true.
Proof.
  intros Vp Fp Hge.
  destruct prev as [sp | sp | | [] mp ep]; try discriminate.
  destruct (valid_finite_inv _ _ _ Vp) as [Cp _].
  unfold geb, SFleb, exact_from in Hge.
  rewrite (compare_canonical 4503599627370496 mp (-1072) ep eq_refl Cp) in Hge.
  change (ulps (S754_finite false 4503599627370496 (-1072))) with (2 ^ 54) in Hge.
  assert (2 ^ 54 <= ulps (S754_finite false mp ep)) as Hbig.
  { destruct (Z.compare_spec (2 ^ 54) (ulps (S754_finite false mp ep)));
      [lia | lia | discriminate]. }
  apply (stoppable_positive mp mp ep ep Vp Vp Hbig). lia.
Qed.

(** ** The further properties on the sample values *)

(** X2 on the session [refusedEnv], whose only event is the failed
    upgrade. *)
Lemma upgrade_echoes_subprotocol_witness :
  @nil Event = [] /\
  ({[ "Sec-Websocket-Protocol" := [sampleProtocol] ]} : http.Header) =
    {[ "Sec-Websocket-Protocol" := [sampleProtocol] ]} /\
  false = negb (upgrade_err refusedEnv) /\
  http.Get (http.Header_ (requestWith ∅)) "Sec-WebSocket-Protocol" = sampleProtocol /\
  queryDuration (requestWith ∅) <> None.
Proof.
  apply (upgrade_echoes_subprotocol sampleProtocol sampleMessageSize sampleInterval
           sampleTimeout freshWriter (requestWith ∅) refusedEnv [] []
           {[ "Sec-Websocket-Protocol" := [sampleProtocol] ]} false).
  vm_compute. reflexivity.
Defined.

(** X3 on the session [sampleEnv]: one connection, closed once. *)
Lemma connection_released_witness :
  occurrences is_conn_close (trace (sampleHandler freshWriter (requestWith ∅) sampleEnv)) =
    occurrences is_upgraded (trace (sampleHandler freshWriter (requestWith ∅) sampleEnv)) /\
  occurrences is_conn_close (trace (sampleHandler freshWriter (requestWith ∅) sampleEnv)) = 1%nat.
Proof.
  destruct (connection_released sampleProtocol sampleMessageSize sampleInterval
              sampleTimeout freshWriter (requestWith ∅) sampleEnv) as (H1 & _).
  - vm_compute. discriminate.
  - split; [exact H1 | vm_compute; reflexivity].
Defined.

(** X4 on the failed write of the session [brokenEnv]. *)
Lemma writes_follow_deadline_witness :
  exists pre' t,
    take 4 (trace (sampleHandler freshWriter (requestWith ∅) brokenEnv)) =
      pre' ++ [SetWriteDeadline t].
Proof.
  apply (writes_follow_deadline sampleProtocol sampleMessageSize sampleInterval
           sampleTimeout freshWriter (requestWith ∅) brokenEnv
           (take 4 (trace (sampleHandler freshWriter (requestWith ∅) brokenEnv)))
           (drop 5 (trace (sampleHandler freshWriter (requestWith ∅) brokenEnv)))
           (WriteJSON {| Elapsed := 250000000; NumBytes := 0 |} false)).
  - vm_compute. reflexivity.
  - reflexivity.
Defined.

(** X5 on the first data frame of the session [sampleEnv]. *)
Lemma data_frames_identical_witness :
  Z.of_nat (length (randomData sampleEnv)) = bufferSize.
Proof.
  apply (data_frames_identical sampleProtocol sampleMessageSize sampleInterval
           sampleTimeout freshWriter (requestWith ∅) sampleEnv
           (take 4 (trace (sampleHandler freshWriter (requestWith ∅) sampleEnv)))
           (drop 5 (trace (sampleHandler freshWriter (requestWith ∅) sampleEnv)))
           {| websocket.messageType := websocket.BinaryMessage;
              websocket.payload := randomData sampleEnv |} true).
  vm_compute. reflexivity.
Defined.

(** X6 on the session [plateauEnv], which the stopping rule ends. *)
Lemma stop_after_measurement_witness :
  exists pre t m,
    trace (sampleHandler freshWriter (requestWith ∅) plateauEnv) =
      pre ++ [SetWriteDeadline t; WriteJSON m true;
              WriteControl websocket.CloseMessage
                (websocket.FormatCloseMessage websocket.CloseNormalClosure "")
                (Add (close_now plateauEnv) sampleTimeout);
              TickerStop; ConnClose].
Proof.
  apply (stop_after_measurement sampleProtocol sampleMessageSize sampleInterval
           sampleTimeout freshWriter (requestWith ∅) plateauEnv).
  vm_compute. reflexivity.
Defined.

(** X7 on the session [plateauEnv]: the sample 120 is compared with the
    sample 100 of two ticks before, the tick in between having none. *)
Lemma stop_compares_with_last_sample_witness :
  exists pre t cur rtt now post,
    steps plateauEnv = pre ++ Tick t (Some (cur, rtt)) now false :: post /\
    bbr_fd plateauEnv <> -1 /\
    stoppableAccordingToBW (List.last (samples (bbr_fd plateauEnv) pre) zero) cur = true /\
    never_stops (bbr_fd plateauEnv) zero pre = true /\
    Forall (fun s => write_fails s = false) pre.
Proof.
  apply (stop_compares_with_last_sample sampleProtocol sampleMessageSize sampleInterval
           sampleTimeout freshWriter (requestWith ∅) plateauEnv).
  vm_compute. reflexivity.
Defined.

(** X8 on the session [slowEnv], which has no BBR file descriptor. *)
Lemma no_sample_no_stop_witness :
  exit (sampleHandler freshWriter (requestWith {[ "duration" := ["2"] ]}) slowEnv) <> Stopped.
Proof.
  apply (no_sample_no_stop sampleProtocol sampleMessageSize sampleInterval
           sampleTimeout freshWriter (requestWith {[ "duration" := ["2"] ]}) slowEnv).
  left. reflexivity.
Defined.

(** X9 on the session [sampleEnv] with [duration=2]. *)
Lemma returns_by_late_check_witness :
  exit (sampleHandler freshWriter (requestWith {[ "duration" := ["2"] ]}) sampleEnv) <>
    OutOfSteps.
Proof.
  apply (returns_by_late_check sampleProtocol sampleMessageSize sampleInterval
           sampleTimeout freshWriter (requestWith {[ "duration" := ["2"] ]}) sampleEnv
           (2 * Second)
           [Default 1000 1001 false;
            Tick 250000000 (Some (of_Z 100, of_Z 3000)) 250000100 false;
            Default 250001000 250001001 false] [] 10100000000 10100000001 false).
  - vm_compute. reflexivity.
  - reflexivity.
  - vm_compute. discriminate.
Defined.

(** X10 on the session [sampleEnv] with [duration=0]. *)
Lemma zero_duration_sends_no_data_witness :
  data_frames (trace (sampleHandler freshWriter
                        (requestWith {[ "duration" := ["0"] ]}) sampleEnv)) = 0 /\
  Forall (fun ev => match ev with WritePreparedMessage _ _ => False | _ => True end)
    (trace (sampleHandler freshWriter (requestWith {[ "duration" := ["0"] ]}) sampleEnv)).
Proof.
  split; [vm_compute; reflexivity |].
  apply (zero_duration_sends_no_data sampleProtocol sampleMessageSize sampleInterval
           sampleTimeout freshWriter (requestWith {[ "duration" := ["0"] ]}) sampleEnv).
  - vm_compute. reflexivity.
  - unfold sampleEnv. cbn [steps check_times start].
    repeat (constructor; [lia |]). constructor.
Defined.

(** X11 on a request with [duration=5]. *)
Lemma duration_whole_seconds_witness :
  exists n, 0 <= n <= maxDuration /\ 5000000000 = n * Second.
Proof.
  apply (duration_whole_seconds (requestWith {[ "duration" := ["5"] ]}) 5000000000).
  vm_compute. reflexivity.
Defined.

(** X12 on the measurement message of the session [sampleEnv]. *)
Lemma numbytes_int64_count_witness :
  8192 = wrap64 (8192 * data_frames
                   (take 6 (trace (sampleHandler freshWriter (requestWith ∅) sampleEnv)))) /\
  (8192 | 8192).
Proof.
  apply (numbytes_int64_count sampleProtocol sampleMessageSize sampleInterval
           sampleTimeout freshWriter (requestWith ∅) sampleEnv
           (take 6 (trace (sampleHandler freshWriter (requestWith ∅) sampleEnv)))
           (drop 7 (trace (sampleHandler freshWriter (requestWith ∅) sampleEnv)))
           {| Elapsed := 250000000; NumBytes := 8192 |} true).
  vm_compute. reflexivity.
Defined.

(** X14 on the samples 100 and then 99. *)
Lemma decrease_never_stops_witness :
  stoppableAccordingToBW (of_Z 100) (of_Z 99) = false.
Proof. apply (decrease_never_stops (of_Z 100) (of_Z 99)). reflexivity. Defined.

(** X15 on the samples 100 and then 120. *)
Lemma stop_needs_positive_samples_witness :
  exists mp ep mc ec,
    of_Z 100 = S754_finite false mp ep /\ of_Z 120 = S754_finite false mc ec.
Proof.
  apply (stop_needs_positive_samples (of_Z 100) (of_Z 120)); reflexivity.
Defined.

(** X16 on the sample 100 twice. *)
Lemma equal_samples_stop_witness :
  stoppableAccordingToBW (of_Z 100) (of_Z 100) = true.
Proof. apply (equal_samples_stop (of_Z 100)); reflexivity. Defined.

(** ** The stopping rule in the loop, and the read limit *)

Section StopProgress.

Variable SecWebSocketProtocol : string.
Variable MinMaxMessageSize : Z.
Variable MinMeasurementInterval : Duration.
Variable defaultTimeout : Duration.

Local Abbreviation handler :=
  (ServeHTTP SecWebSocketProtocol MinMaxMessageSize MinMeasurementInterval defaultTimeout).

(** The loop reaches a tick that follows iterations without a failed write,
    without a stop decision and with duration checks before the duration,
    and the rule is evaluated there against the sample obtained last. *)
Lemma loop_reaches_stop (d : Duration) (fd : Z) (buffer : websocket.PreparedMessage)
    (t0 : Time) (pre post : list Step) (t : Time) (cur rtt : float64) (now : Time)
    (count : Z) (bw : float64) :
  fd <> -1 ->
  Forall (fun t => Sub t t0 < d) (check_times pre) ->
  Forall (fun s => write_fails s = false) pre ->
  never_stops fd bw pre = true ->
  stoppableAccordingToBW (List.last (samples fd pre) bw) cur = true ->
  snd (loop defaultTimeout d fd buffer t0
         (pre ++ Tick t (Some (cur, rtt)) now false :: post) count bw) = Stopped.
Proof.
  intros Hfd. apply Z.eqb_neq in Hfd. revert count bw.
  induction pre as [| [t1 sample tn we | tn tn' we] pre IH]; intros c bw Hchk Hw Hns Hst.
  - cbn [app loop samples List.last] in *. rewrite Hfd. cbn [negb]. rewrite Hst. reflexivity.
  - apply Forall_cons in Hw as [Hwe Hw]. cbn [write_fails] in Hwe. subst we.
    cbn [app loop]. cbn [check_times] in Hchk. rewrite tick_decision, Hfd.
    cbn [never_stops samples] in Hns, Hst. rewrite Hfd in Hns, Hst.
    destruct sample as [[s_bw s_rtt] |].
    + apply andb_true_iff in Hns as [H1 H2]. rewrite H1.
      assert (stoppableAccordingToBW (List.last (samples fd pre) s_bw) cur = true) as Hst'.
      { destruct (samples fd pre) as [| x xs]; [exact Hst |].
        change (List.last (s_bw :: x :: xs) bw) with (List.last (x :: xs) bw) in Hst.
        rewrite (last_cons_default x xs s_bw bw). exact Hst. }
      specialize (IH c s_bw Hchk Hw H2 Hst').
      destruct (loop _ _ _ _ _ _ c s_bw). exact IH.
    + specialize (IH c bw Hchk Hw Hns Hst).
      destruct (loop _ _ _ _ _ _ c bw). exact IH.
  - apply Forall_cons in Hw as [Hwe Hw]. cbn [write_fails] in Hwe. subst we.
    cbn [check_times] in Hchk. apply Forall_cons in Hchk as [Hlt Hchk].
    cbn [app loop]. cbn [never_stops samples] in Hns, Hst.
    replace (Sub tn t0 >=? d) with false
      by (symmetry; rewrite Z.geb_leb; apply Z.leb_gt; exact Hlt).
    specialize (IH (wrap64 (c + bufferSize)) bw Hchk Hw Hns Hst).
    destruct (loop _ _ _ _ _ _ _ bw). exact IH.
Qed.

(** X17.  The stopping rule ends the session at the first tick whose sample
    satisfies it against the sample obtained last: when the iterations
    before that tick have no failed write, no stop decision and no duration
    check past the duration, the run ends there by the rule. *)
Theorem stops_at_first_plateau (w : http.ResponseWriter) (request : http.Request) (env : Env)
    (d : Duration) (pre post : list Step) (t : Time) (cur rtt : float64) (now : Time) :
  queryDuration request = Some d ->
  http.Get (http.Header_ request) "Sec-WebSocket-Protocol" = SecWebSocketProtocol ->
  upgrade_err env = false -> prepare_err env = false ->
  steps env = pre ++ Tick t (Some (cur, rtt)) now false :: post ->
  bbr_fd env <> -1 ->
  Forall (fun t => Sub t (start env) < d) (check_times pre) ->
  Forall (fun s => write_fails s = false) pre ->
  never_stops (bbr_fd env) zero pre = true ->
  stoppableAccordingToBW (List.last (samples (bbr_fd env) pre) zero) cur = true ->
  exit (handler w request env) = Stopped.
Proof.
  intros HQ Hp Hu Hpr Hs Hfd Hchk Hw Hns Hst.
  unfold ServeHTTP. rewrite HQ. unfold serve.
  apply String.eqb_eq in Hp. rewrite Hp, Hu, Hpr. cbn [negb]. rewrite Hs.
  pose proof (loop_reaches_stop d (bbr_fd env)
                {| websocket.messageType := websocket.BinaryMessage;
                   websocket.payload := randomData env |} (start env)
                pre post t cur rtt now 0 zero Hfd Hchk Hw Hns Hst) as HR.
  destruct (loop _ _ _ _ _ _ _ _) as [tr e]. cbn [snd] in HR. cbn [exit]. exact HR.
Qed.


End StopProgress.

(** X17 on the session [plateauEnv]. *)
Lemma stops_at_first_plateau_witness :
  exit (sampleHandler freshWriter (requestWith ∅) plateauEnv) = Stopped.
Proof.
  apply (stops_at_first_plateau sampleProtocol sampleMessageSize sampleInterval
           sampleTimeout freshWriter (requestWith ∅) plateauEnv (10 * Second)
           [Default 1000 1001 false;
            Tick 250000000 (Some (of_Z 100, of_Z 3000)) 250000100 false;
            Default 250001000 250001001 false;
            Tick 500000000 None 500000100 false]
           [Default 750001000 750001001 false]
           750000000 (of_Z 120) (of_Z 3000) 750000100).
  - reflexivity.
  - vm_compute. reflexivity.
  - reflexivity.
  - reflexivity.
  - reflexivity.
  - vm_compute. discriminate.
  - cbn [check_times]. repeat (constructor; [vm_compute; reflexivity |]). constructor.
  - repeat constructor.
  - vm_compute. reflexivity.
  - vm_compute. reflexivity.
Defined.

